(** * server.py of adams-career-coach: a shallow embedding and its properties

    The program is one Flask module: an anti-forgery (CSRF) double-submit
    cookie, three model-backed POST endpoints relaying to a completion API,
    and best-effort recovery of JSON from the completion text.

    Layout: the Python values the module handles; the library calls it
    relies on (str methods, [secrets.compare_digest], [secrets.token_urlsafe],
    [json.loads], the Flask request and response, [requests.post]); the
    module's own functions, in source order; then the properties.

    The page and asset routes and the rate limiter, whose decorators run
    before a view is entered, are outside the embedding. Logging is left
    out: no logging call of the module can raise on the values it is given. *)

From Stdlib Require Import ZArith NArith List String Ascii Bool Lia.
From Stdlib Require Strings.Byte.
From stdpp Require Import base option list gmap.

Set Warnings "-register-all".
Local Open Scope N_scope.

(** ** Python values *)

(** A Python [str] is a sequence of Unicode code points. *)
Abbreviation pystr := (list N).

(** The code points of an ASCII literal. *)
Definition str (s : string) : pystr :=
  map N_of_ascii (list_ascii_of_string s).

Definition ch (a : ascii) : N := N_of_ascii a.

(** Two code points written by number: the double quote and the line feed. *)
Definition DQUOTE : N := 34.
Definition LF : N := 10.

(** [lit s] is the Python literal written [s] with single quotes standing for
    double quotes and the two characters backslash-n for a line feed. *)
Fixpoint lit_codes (s : pystr) : pystr :=
  match s with
  | [] => []
  | c :: r =>
    if c =? ch "'" then DQUOTE :: lit_codes r
    else if c =? ch "\" then
      match r with
      | e :: r' => if e =? ch "n" then LF :: lit_codes r' else c :: lit_codes r
      | [] => [c]
      end
    else c :: lit_codes r
  end.

Definition lit (s : string) : pystr := lit_codes (str s).

(** A float is kept as it is written: sign, decimal digits and power of ten.
    The module never computes with floats, it only relays them. *)
Inductive pyfloat :=
| Dec (negative : bool) (digits : N) (exp10 : Z)
| NaN
| Inf (negative : bool).

(** The values [json.loads] and [request.get_json] produce, which are also
    the values [jsonify] and [requests.post(json=...)] accept. *)
Inductive json :=
| PNone
| PBool (b : bool)
| PInt (z : Z)
| PFloat (f : pyfloat)
| PStr (s : pystr)
| PList (l : list json)
| PDict (d : gmap pystr json).

(** Exceptions, by class. All are subclasses of [Exception]. *)
Inductive exn :=
| TypeError
| AttributeError
| KeyError
| IndexError
| JSONDecodeError
| RecursionError
| HTTPException (code : Z)
| RequestException.

(** The outcome of evaluating a Python expression. *)
Inductive res (A : Type) :=
| Ret (a : A)
| Raise (e : exn).
Arguments Ret {A} a.
Arguments Raise {A} e.

Definition res_bind {A B} (m : res A) (k : A -> res B) : res B :=
  match m with
  | Ret a => k a
  | Raise e => Raise e
  end.

Notation "'let?' x := m 'in' k" := (res_bind m (fun x => k))
  (at level 10, x name, m at level 100, k at level 200).

(** [try: m  except Exception as e: h e] *)
Definition try_except {A} (m : res A) (h : exn -> res A) : res A :=
  match m with
  | Ret a => Ret a
  | Raise e => h e
  end.

(** ** str methods *)

(** [Py_UNICODE_ISSPACE]: the code points [str.strip()] removes. *)
Definition isspace (c : N) : bool :=
  ((9 <=? c) && (c <=? 13)) || ((28 <=? c) && (c <=? 32))
  || (c =? 133) || (c =? 160) || (c =? 5760)
  || ((8192 <=? c) && (c <=? 8202))
  || (c =? 8232) || (c =? 8233) || (c =? 8239) || (c =? 8287) || (c =? 12288).

Fixpoint lstrip (s : pystr) : pystr :=
  match s with
  | c :: r => if isspace c then lstrip r else s
  | [] => []
  end.

Definition rstrip (s : pystr) : pystr := rev (lstrip (rev s)).

Definition strip (s : pystr) : pystr := rstrip (lstrip s).

(** [str.lower()] on the code points A-Z. No code point outside ASCII
    lowers to one of the letters t, r, u, e, so comparing a lowered string
    with ['true'] is exact. *)
Definition lower_char (c : N) : N :=
  if (65 <=? c) && (c <=? 90) then c + 32 else c.

Definition lower (s : pystr) : pystr := map lower_char s.

(** How Python clips a slice bound into [0, len]. *)
Definition clip (len i : Z) : Z :=
  if (i <? 0)%Z then Z.max 0 (i + len) else Z.min i len.

Fixpoint index_from (c : N) (s : pystr) (i : Z) : Z :=
  match s with
  | [] => (-1)%Z
  | x :: r => if x =? c then i else index_from c r (i + 1)%Z
  end.

(** [s.find(c, start)] for a one-character needle. *)
Definition find (s : pystr) (c : N) (start : Z) : Z :=
  let st := clip (Z.of_nat (length s)) start in
  index_from c (drop (Z.to_nat st) s) st.

(** [s[a:b]] *)
Definition slice (s : pystr) (a b : Z) : pystr :=
  let len := Z.of_nat (length s) in
  let a' := clip len a in
  let b' := clip len b in
  take (Z.to_nat (b' - a')) (drop (Z.to_nat a') s).

(** ** secrets.compare_digest *)

Definition isascii (s : pystr) : bool := forallb (fun c => c <? 128) s.

(** The loop of [_tscmp]: [result |= *left++ ^ *right++] over the length of
    the right operand. *)
Fixpoint tscmp_loop (left right : pystr) (result : N) : N :=
  match left, right with
  | l :: left', r :: right' => tscmp_loop left' right' (N.lor result (N.lxor l r))
  | _, _ => result
  end.

(** [_tscmp]: when the lengths differ the right operand is compared with
    itself and the result starts at 1. *)
Definition tscmp (a b : pystr) : bool :=
  let left := if (length a =? length b)%nat then a else b in
  let result := if (length a =? length b)%nat then 0 else 1 in
  tscmp_loop left b result =? 0.

(** [compare_digest(a, b)] on [Optional[str]] operands: [None] or a string
    with a non-ASCII code point raises [TypeError]. *)
Definition compare_digest (a b : option pystr) : res bool :=
  match a, b with
  | Some a, Some b =>
    if isascii a && isascii b then Ret (tscmp a b) else Raise TypeError
  | _, _ => Raise TypeError
  end.

(** ** json.loads

    The decoder of CPython's [json] package (the scanner of [_json.c]), on
    the input that remains to be read instead of on a string and an index. *)

Inductive scan (A : Type) :=
| Scanned (a : A) (rest : pystr)
| Malformed
| Exhausted.
Arguments Scanned {A} a rest.
Arguments Malformed {A}.
Arguments Exhausted {A}.

Definition scan_map {A B} (f : A -> B) (m : scan A) : scan B :=
  match m with
  | Scanned a rest => Scanned (f a) rest
  | Malformed => Malformed
  | Exhausted => Exhausted
  end.

(** The whitespace of the grammar: space, tab, line feed, carriage return. *)
Definition is_ws (c : N) : bool :=
  (c =? 32) || (c =? 9) || (c =? 10) || (c =? 13).

Fixpoint skip_ws (s : pystr) : pystr :=
  match s with
  | c :: r => if is_ws c then skip_ws r else s
  | [] => []
  end.

Fixpoint after_prefix (p s : pystr) : option pystr :=
  match p, s with
  | [], _ => Some s
  | a :: p', b :: s' => if a =? b then after_prefix p' s' else None
  | _ :: _, [] => None
  end.

Definition hexval (c : N) : option N :=
  if (48 <=? c) && (c <=? 57) then Some (c - 48)
  else if (97 <=? c) && (c <=? 102) then Some (c - 87)
  else if (65 <=? c) && (c <=? 70) then Some (c - 55)
  else None.

Definition hex4 (a b c d : N) : option N :=
  match hexval a, hexval b, hexval c, hexval d with
  | Some a, Some b, Some c, Some d => Some (((a * 16 + b) * 16 + c) * 16 + d)
  | _, _, _, _ => None
  end.

(** The one-character escapes after a backslash. *)
Definition unescape (c : N) : option N :=
  if c =? DQUOTE then Some DQUOTE
  else if c =? ch "\" then Some (ch "\")
  else if c =? ch "/" then Some (ch "/")
  else if c =? ch "b" then Some 8
  else if c =? ch "f" then Some 12
  else if c =? ch "n" then Some 10
  else if c =? ch "r" then Some 13
  else if c =? ch "t" then Some 9
  else None.

Definition is_high_surrogate (c : N) : bool := (55296 <=? c) && (c <=? 56319).
Definition is_low_surrogate (c : N) : bool := (56320 <=? c) && (c <=? 57343).
Definition join_surrogates (hi lo : N) : N :=
  65536 + N.lor (N.shiftl (hi - 55296) 10) (lo - 56320).

(** [scanstring], strict: the input after the opening quote, up to and
    including the closing quote. [acc] holds the decoded code points, last
    first. *)
Fixpoint scanstring (s : pystr) (acc : pystr) : scan pystr :=
  match s with
  | [] => Malformed
  | c :: r =>
    if c =? DQUOTE then Scanned (rev acc) r
    else if c =? ch "\" then
      match r with
      | [] => Malformed
      | e :: r1 =>
        if e =? ch "u" then
          match r1 with
          | h1 :: h2 :: h3 :: h4 :: r2 =>
            match hex4 h1 h2 h3 h4 with
            | None => Malformed
            | Some u =>
              if is_high_surrogate u then
                match r2 with
                | b :: e2 :: k1 :: k2 :: k3 :: k4 :: r3 =>
                  if (b =? ch "\") && (e2 =? ch "u") then
                    match hex4 k1 k2 k3 k4 with
                    | None => Malformed
                    | Some u2 =>
                      if is_low_surrogate u2
                      then scanstring r3 (join_surrogates u u2 :: acc)
                      else scanstring r2 (u :: acc)
                    end
                  else scanstring r2 (u :: acc)
                | _ => scanstring r2 (u :: acc)
                end
              else scanstring r2 (u :: acc)
            end
          | _ => Malformed
          end
        else
          match unescape e with
          | Some x => scanstring r1 (x :: acc)
          | None => Malformed
          end
      end
    else if c <? 32 then Malformed
    else scanstring r (c :: acc)
  end.

Definition isdigit (c : N) : bool := (48 <=? c) && (c <=? 57).

(** The longest prefix of digits, and what follows it. *)
Fixpoint span_digits (s : pystr) : pystr * pystr :=
  match s with
  | c :: r =>
    if isdigit c then let '(ds, rest) := span_digits r in (c :: ds, rest)
    else ([], s)
  | [] => ([], [])
  end.

Definition digits_value (ds : pystr) : N :=
  fold_left (fun a d => 10 * a + (d - 48)) ds 0.

Definition signed (negative : bool) (n : N) : Z :=
  if negative then (- Z.of_N n)%Z else Z.of_N n.

(** [_match_number] at the head of the input: an optional minus sign; a
    single 0, or a digit 1-9 and any digits; then, each only when complete, a
    point with one or more digits and an e or E with an optional sign and one
    or more digits. Without fraction and exponent the value is an int. *)
Definition match_number (s : pystr) : option (json * pystr) :=
  let '(neg, s1) :=
    match s with
    | c :: r => if c =? ch "-" then (true, r) else (false, s)
    | [] => (false, s)
    end in
  match s1 with
  | d :: r =>
    if isdigit d then
      let '(int_ds, s2) := if d =? ch "0" then ([d], r) else span_digits s1 in
      let '(frac_ds, s3) :=
        match s2 with
        | p :: r2 =>
          if p =? ch "." then
            match span_digits r2 with
            | ([], _) => ([], s2)
            | (fd, r3) => (fd, r3)
            end
          else ([], s2)
        | [] => ([], s2)
        end in
      let '(exponent, s4) :=
        match s3 with
        | e :: r3 =>
          if (e =? ch "e") || (e =? ch "E") then
            let '(eneg, r4) :=
              match r3 with
              | x :: r' =>
                if x =? ch "-" then (true, r')
                else if x =? ch "+" then (false, r')
                else (false, r3)
              | [] => (false, r3)
              end in
            match span_digits r4 with
            | ([], _) => (None, s3)
            | (ed, r5) => (Some (signed eneg (digits_value ed)), r5)
            end
          else (None, s3)
        | [] => (None, s3)
        end in
      match frac_ds, exponent with
      | [], None => Some (PInt (signed neg (digits_value int_ds)), s4)
      | _, _ =>
        Some (PFloat (Dec neg (digits_value (int_ds ++ frac_ds))
                          (default 0%Z exponent - Z.of_nat (length frac_ds))), s4)
      end
    else None
  | [] => None
  end.

(** The constants and numbers of [scan_once], tried after the string, object
    and array cases. *)
Definition scan_atom (s : pystr) : scan json :=
  match after_prefix (str "null") s with
  | Some rest => Scanned PNone rest
  | None =>
  match after_prefix (str "true") s with
  | Some rest => Scanned (PBool true) rest
  | None =>
  match after_prefix (str "false") s with
  | Some rest => Scanned (PBool false) rest
  | None =>
  match after_prefix (str "NaN") s with
  | Some rest => Scanned (PFloat NaN) rest
  | None =>
  match after_prefix (str "Infinity") s with
  | Some rest => Scanned (PFloat (Inf false)) rest
  | None =>
  match after_prefix (str "-Infinity") s with
  | Some rest => Scanned (PFloat (Inf true)) rest
  | None =>
  match match_number s with
  | Some (v, rest) => Scanned v rest
  | None => Malformed
  end end end end end end end.

(** [scan_once] with the loops of [_parse_array] and [_parse_object]. Every
    call spends one unit of [fuel]; [json_loads] below supplies enough. *)
Fixpoint scan_once (fuel : nat) (s : pystr) : scan json :=
  match fuel with
  | O => Exhausted
  | S fuel =>
    match s with
    | [] => Malformed
    | c :: r =>
      if c =? DQUOTE then scan_map PStr (scanstring r [])
      else if c =? ch "{" then
        match skip_ws r with
        | c' :: r' =>
          if c' =? ch "}" then Scanned (PDict ∅) r'
          else parse_members fuel (c' :: r') ∅
        | [] => Malformed
        end
      else if c =? ch "[" then
        match skip_ws r with
        | c' :: r' =>
          if c' =? ch "]" then Scanned (PList []) r'
          else parse_elems fuel (c' :: r') []
        | [] => Malformed
        end
      else scan_atom s
    end
  end
with parse_elems (fuel : nat) (s : pystr) (acc : list json) : scan json :=
  match fuel with
  | O => Exhausted
  | S fuel =>
    match scan_once fuel s with
    | Scanned v rest =>
      match skip_ws rest with
      | c :: r =>
        if c =? ch "]" then Scanned (PList (rev (v :: acc))) r
        else if c =? ch "," then parse_elems fuel (skip_ws r) (v :: acc)
        else Malformed
      | [] => Malformed
      end
    | Malformed => Malformed
    | Exhausted => Exhausted
    end
  end
with parse_members (fuel : nat) (s : pystr) (acc : gmap pystr json) : scan json :=
  match fuel with
  | O => Exhausted
  | S fuel =>
    match s with
    | q :: r0 =>
      if q =? DQUOTE then
        match scanstring r0 [] with
        | Scanned key rest =>
          match skip_ws rest with
          | colon :: r1 =>
            if colon =? ch ":" then
              match scan_once fuel (skip_ws r1) with
              | Scanned v rest' =>
                match skip_ws rest' with
                | c :: r =>
                  if c =? ch "}" then Scanned (PDict (<[key := v]> acc)) r
                  else if c =? ch "," then
                    parse_members fuel (skip_ws r) (<[key := v]> acc)
                  else Malformed
                | [] => Malformed
                end
              | Malformed => Malformed
              | Exhausted => Exhausted
              end
            else Malformed
          | [] => Malformed
          end
        | Malformed => Malformed
        | Exhausted => Exhausted
        end
      else Malformed
    | [] => Malformed
    end
  end.

(** [json.loads(s)] for a [str]: a byte-order mark is refused, whitespace
    may surround the one value, anything else after it is "Extra data". *)
Definition json_loads (s : pystr) : res json :=
  match after_prefix [65279] s with
  | Some _ => Raise JSONDecodeError
  | None =>
    match scan_once (2 * length s + 1) (skip_ws s) with
    | Scanned v rest =>
      match skip_ws rest with
      | [] => Ret v
      | _ :: _ => Raise JSONDecodeError
      end
    | Malformed => Raise JSONDecodeError
    | Exhausted => Raise RecursionError
    end
  end.

(** ** base64.urlsafe_b64encode and secrets.token_urlsafe *)

Definition B64URL : pystr :=
  str "ABCDEFGHIJKLMNOPQRSTUVWXYZabcdefghijklmnopqrstuvwxyz0123456789-_".

(** The character of the low six bits of [n]. *)
Definition b64char (n : N) : N := nth (N.to_nat (N.land n 63)) B64URL 0.

Fixpoint urlsafe_b64encode (bs : list N) : pystr :=
  match bs with
  | [] => []
  | [a] =>
    let w := N.shiftl a 16 in
    [b64char (N.shiftr w 18); b64char (N.shiftr w 12); ch "="; ch "="]
  | [a; b] =>
    let w := N.lor (N.shiftl a 16) (N.shiftl b 8) in
    [b64char (N.shiftr w 18); b64char (N.shiftr w 12); b64char (N.shiftr w 6);
     ch "="]
  | a :: b :: c :: r =>
    let w := N.lor (N.shiftl a 16) (N.lor (N.shiftl b 8) c) in
    b64char (N.shiftr w 18) :: b64char (N.shiftr w 12)
      :: b64char (N.shiftr w 6) :: b64char w :: urlsafe_b64encode r
  end.

Fixpoint lstrip_char (c : N) (s : pystr) : pystr :=
  match s with
  | x :: r => if x =? c then lstrip_char c r else s
  | [] => []
  end.

(** [s.rstrip(c)] for a one-character argument. *)
Definition rstrip_char (c : N) (s : pystr) : pystr :=
  rev (lstrip_char c (rev s)).

(** ** The Flask request and response, and the upstream call *)

(** What the handlers read of [flask.request]. Header names are matched
    without regard to case: [headers] is keyed by the lowered name.
    [get_json] is the outcome of [request.get_json()], the parsed body or
    the HTTP error Flask raises for a body it cannot parse. *)
Record request := {
  cookies : gmap pystr pystr;
  headers : gmap pystr pystr;
  get_json : res json;
}.

Definition headers_get (req : request) (name : pystr) : option pystr :=
  headers req !! lower name.

(** A [Set-Cookie] entry, with the parameters of [Response.set_cookie]. *)
Record cookie := {
  key : pystr;
  value : pystr;
  max_age : option Z;
  path : option pystr;
  secure : bool;
  httponly : bool;
  samesite : option pystr;
}.

Inductive payload :=
| JsonBody (j : json)
| FileBody (name : pystr).

Record response := {
  status : Z;
  body : payload;
  set_cookies : list cookie;
}.

(** [jsonify(j)] *)
Definition jsonify (j : json) : response :=
  {| status := 200; body := JsonBody j; set_cookies := [] |}.

(** [return resp, code] from a view *)
Definition with_status (resp : response) (code : Z) : response :=
  {| status := code; body := body resp; set_cookies := set_cookies resp |}.

(** [resp.set_cookie(key, value, max_age=, samesite=, secure=, httponly=)]:
    one more [Set-Cookie] entry, path ["/"] by default. *)
Definition set_cookie (resp : response) (k v : pystr) (age : Z)
    (ss : pystr) (sec ho : bool) : response :=
  {| status := status resp;
     body := body resp;
     set_cookies := set_cookies resp ++
       [{| key := k; value := v; max_age := Some age; path := Some (str "/");
           secure := sec; httponly := ho; samesite := Some ss |}] |}.

(** A dict display; the keys of every display in the module are distinct. *)
Definition dict (kvs : list (pystr * json)) : json := PDict (list_to_map kvs).

(** The arguments of one [requests.post(url, headers=, json=)]. *)
Record post_call := {
  url : pystr;
  call_headers : gmap pystr pystr;
  call_json : json;
}.

(** The upstream's answer, as far as the handlers read it: [resp.json()]. *)
Record reply := {
  reply_json : res json;
}.

(** What a request changes outside the interpreter: the calls sent upstream,
    oldest first, and the number of bytes drawn from the entropy source. *)
Record world := {
  sent : list post_call;
  drawn : nat;
}.

(** A computation that may raise and may act on the world. *)
Definition M (A : Type) : Type := world -> res A * world.

Definition ret {A} (a : A) : M A := fun w => (Ret a, w).

Definition bind {A B} (m : M A) (k : A -> M B) : M B :=
  fun w =>
    match m w with
    | (Ret a, w') => k a w'
    | (Raise e, w') => (Raise e, w')
    end.

Definition lift {A} (r : res A) : M A := fun w => (r, w).

(** [try: m  except Exception as e: h e], effects of [m] kept. *)
Definition try_ {A} (m : M A) (h : exn -> M A) : M A :=
  fun w =>
    match m w with
    | (Ret a, w') => (Ret a, w')
    | (Raise e, w') => h e w'
    end.

Notation "x <- m ;; k" := (bind m (fun x => k))
  (at level 100, m at next level, right associativity).

(** ** Python operators and methods on the values above *)

(** [not o] for an [Optional[str]] *)
Definition falsy (o : option pystr) : bool :=
  match o with
  | Some (_ :: _) => false
  | _ => true
  end.

(** [a or b] *)
Definition or_ (a b : option pystr) : option pystr :=
  if falsy a then b else a.

(** [f"{o}"] *)
Definition fmt (o : option pystr) : pystr :=
  match o with
  | Some s => s
  | None => str "None"
  end.

(** [data.get(k, dflt)]: only a dict has the method. *)
Definition get_method (data : json) (k : pystr) (dflt : json) : res json :=
  match data with
  | PDict d => Ret (default dflt (d !! k))
  | _ => Raise AttributeError
  end.

(** [v.strip()]: only a str has the method. *)
Definition strip_method (v : json) : res pystr :=
  match v with
  | PStr s => Ret (strip s)
  | _ => Raise AttributeError
  end.

(** [v[k]] for a str key *)
Definition getitem_str (v : json) (k : pystr) : res json :=
  match v with
  | PDict d =>
    match d !! k with
    | Some x => Ret x
    | None => Raise KeyError
    end
  | _ => Raise TypeError
  end.

(** [v[i]] for an index [i >= 0]. The keys of a parsed dict are strings. *)
Definition getitem_int (v : json) (i : nat) : res json :=
  match v with
  | PList l =>
    match l !! i with
    | Some x => Ret x
    | None => Raise IndexError
    end
  | PStr s =>
    match s !! i with
    | Some c => Ret (PStr [c])
    | None => Raise IndexError
    end
  | PDict _ => Raise KeyError
  | _ => Raise TypeError
  end.

(** [isinstance(v, list)] *)
Definition is_list (v : json) : bool :=
  match v with
  | PList _ => true
  | _ => false
  end.

(** [isinstance(v, dict) and k in v] *)
Definition is_dict_with (v : json) (k : pystr) : bool :=
  match v with
  | PDict d => bool_decide (is_Some (d !! k))
  | _ => false
  end.

(** ** server.py *)

(** The module-level configuration, read once from the process environment
    (after [load_dotenv()]). *)
Record config := {
  CSRF_COOKIE_SECURE : bool;
  OPENAI_API_KEY : option pystr;
  OPENAI_MODEL : pystr;
}.

(** [os.getenv(k)] *)
Definition getenv (environ : gmap pystr pystr) (k : pystr) : option pystr :=
  environ !! k.

Definition load_config (environ : gmap pystr pystr) : config :=
  {| CSRF_COOKIE_SECURE :=
       bool_decide
         (lower (default (str "false") (getenv environ (str "CSRF_COOKIE_SECURE")))
          = str "true");
     OPENAI_API_KEY := getenv environ (str "OPENAI_API_KEY");
     OPENAI_MODEL := default (str "gpt-3.5-turbo") (getenv environ (str "OPENAI_MODEL")) |}.

Definition CSRF_COOKIE_NAME : pystr := str "csrf-token".

Definition COMPLETIONS_URL : pystr :=
  str "https://api.openai.com/v1/chat/completions".

Definition csrf_error : response :=
  with_status
    (jsonify (dict [(str "error", PStr (str "CSRF token missing or invalid"))])) 403.

Definition api_key_error : response :=
  with_status (jsonify (dict [(str "error", PStr (str "API key missing"))])) 500.

(** [verify_csrf()], lines 44-52 *)
Definition verify_csrf (req : request) : res bool :=
  let cookie_token := cookies req !! CSRF_COOKIE_NAME in
  let header_token := headers_get req (str "X-CSRF-Token") in
  if falsy cookie_token || falsy header_token then Ret false
  else
    try_except (compare_digest cookie_token header_token)
      (fun _ => Ret false).

Section Server.

(** The entropy source: the [i]-th byte [os.urandom] yields. *)
Variable urandom : nat -> Byte.byte.

(** [json.loads] on a str. *)
Variable loads : pystr -> res json.

(** [requests.post]: the upstream's answer to a call, given how many calls
    went before it. *)
Variable requests_post : nat -> post_call -> res reply.

(** [str(e)] *)
Variable exn_str : exn -> pystr.

(** [secrets.token_bytes(n)] *)
Definition token_bytes (n : nat) : M (list N) :=
  fun w =>
    (Ret (map (fun i => Byte.to_N (urandom (drawn w + i)%nat)) (seq 0 n)),
     {| sent := sent w; drawn := (drawn w + n)%nat |}).

(** [secrets.token_urlsafe(n)] *)
Definition token_urlsafe (n : nat) : M pystr :=
  tok <- token_bytes n ;;
  ret (rstrip_char (ch "=") (urlsafe_b64encode tok)).

(** [_new_csrf_token()], lines 27-28 *)
Definition _new_csrf_token : M pystr := token_urlsafe 32.

(** [ensure_csrf_cookie(resp, token=None)], lines 30-42 *)
Definition ensure_csrf_cookie (cfg : config) (req : request)
    (resp : response) (token : option pystr) : M response :=
  let token := or_ token (cookies req !! CSRF_COOKIE_NAME) in
  token <- (match token with
            | Some (c :: t) => ret (c :: t)
            | _ => _new_csrf_token
            end) ;;
  ret (set_cookie resp CSRF_COOKIE_NAME token (7 * 24 * 60 * 60)%Z
         (str "Lax") (CSRF_COOKIE_SECURE cfg) false).

(** [GET /api/csrf], lines 76-80 *)
Definition csrf_token (cfg : config) (req : request) : M response :=
  token <- (match cookies req !! CSRF_COOKIE_NAME with
            | Some (c :: t) => ret (c :: t)
            | _ => _new_csrf_token
            end) ;;
  let resp := jsonify (dict [(str "token", PStr token)]) in
  ensure_csrf_cookie cfg req resp (Some token).

(** [requests.post(url, headers=headers, json=payload)] *)
Definition post (u : pystr) (hs : gmap pystr pystr) (j : json) : M reply :=
  fun w =>
    let c := {| url := u; call_headers := hs; call_json := j |} in
    (requests_post (length (sent w)) c,
     {| sent := sent w ++ [c]; drawn := drawn w |}).

Definition auth_headers (cfg : config) : gmap pystr pystr :=
  list_to_map
    [(str "Authorization", str "Bearer " ++ fmt (OPENAI_API_KEY cfg));
     (str "Content-Type", str "application/json")].

(** [json.loads(content)]: anything but a str is a [TypeError]. *)
Definition loads_value (content : json) : res json :=
  match content with
  | PStr s => loads s
  | _ => Raise TypeError
  end.

Definition no_areas : response := jsonify (dict [(str "areas", PList [])]).

(** Lines 119-137 of [get_areas]: the areas in the completion text. The
    inner handler runs only when the direct parse raises; whatever does not
    return falls through to the empty list. *)
Definition extract_areas (content : json) : res response :=
  match loads_value content with
  | Ret areas =>
    if is_list areas then Ret (jsonify (dict [(str "areas", areas)]))
    else Ret no_areas
  | Raise _ =>
    match content with
    | PStr s =>
      let start := find s (ch "[") 0 in
      let end_ := find s (ch "]") start in
      if (start >=? 0)%Z && (end_ >? start)%Z then
        let arr := slice s start (end_ + 1) in
        match loads arr with
        | Ret areas =>
          if is_list areas then Ret (jsonify (dict [(str "areas", areas)]))
          else Ret no_areas
        | Raise _ => Ret no_areas
        end
      else Ret no_areas
    | _ => Raise AttributeError
    end
  end.

(** [resp.json()["choices"][0]["message"]["content"]] *)
Definition completion_content (r : reply) : res json :=
  let? j := reply_json r in
  let? choices := getitem_str j (str "choices") in
  let? choice := getitem_int choices 0 in
  let? message := getitem_str choice (str "message") in
  getitem_str message (str "content").

Definition internal_error (e : exn) : response :=
  with_status (jsonify (dict [(str "error", PStr (exn_str e))])) 500.

Definition areas_prompt (coach : pystr) : json :=
  PList
    [dict [(str "role", PStr (str "system"));
           (str "content", PStr (
              str "You are an expert career coach. "
              ++ str "List ONLY the main interview/practice areas for the career: '"
              ++ coach ++ str "'. "
              ++ str "Return a valid JSON array with 10 to 30 distinct strings covering the breadth of the role. "
              ++ str "No commentary, no explanation, no markdown, no keys, no extra text."))];
     dict [(str "role", PStr (str "user"));
           (str "content", PStr (
              str "Provide 10-30 core interview/practice areas for a '"
              ++ coach ++ str "' candidate. "
              ++ str "Output ONLY a JSON array of strings."))]].

(** [POST /api/areas], lines 84-140 *)
Definition get_areas (cfg : config) (req : request) : M response :=
  ok <- lift (verify_csrf req) ;;
  if negb ok then ret csrf_error
  else if falsy (OPENAI_API_KEY cfg) then ret api_key_error
  else
    data <- lift (get_json req) ;;
    coach <- lift (let? c := get_method data (str "coach") (PStr []) in
                   strip_method c) ;;
    match coach with
    | [] => ret no_areas
    | _ :: _ =>
      let prompt := areas_prompt coach in
      let headers := auth_headers cfg in
      let payload :=
        dict [(str "model", PStr (OPENAI_MODEL cfg));
              (str "messages", prompt);
              (str "max_tokens", PInt 300);
              (str "temperature", PFloat (Dec false 0 (-1)))] in
      try_ (resp <- post COMPLETIONS_URL headers payload ;;
            content <- lift (completion_content resp) ;;
            lift (extract_areas content))
           (fun e => ret (internal_error e))
    end.

(** [POST /api/chat], lines 144-167 *)
Definition chat (cfg : config) (req : request) : M response :=
  ok <- lift (verify_csrf req) ;;
  if negb ok then ret csrf_error
  else if falsy (OPENAI_API_KEY cfg) then ret api_key_error
  else
    data <- lift (get_json req) ;;
    let headers := auth_headers cfg in
    messages <- lift (get_method data (str "messages") PNone) ;;
    max_tokens <- lift (get_method data (str "max_tokens") (PInt 800)) ;;
    temperature <- lift (get_method data (str "temperature")
                           (PFloat (Dec false 2 (-1)))) ;;
    let payload :=
      dict [(str "model", PStr (OPENAI_MODEL cfg));
            (str "messages", messages);
            (str "max_tokens", max_tokens);
            (str "temperature", temperature)] in
    try_ (resp <- post COMPLETIONS_URL headers payload ;;
          j <- lift (reply_json resp) ;;
          ret (jsonify j))
         (fun e => ret (internal_error e)).

Definition no_area_provided : response :=
  jsonify (dict [(str "safe", PBool false);
                 (str "reason", PStr (str "No area provided"))]).

Definition could_not_verify : response :=
  jsonify (dict [(str "safe", PBool false);
                 (str "reason", PStr (str "Could not verify area safety"))]).

(** Lines 203-210 of [check_area]: the verdict in the completion text. *)
Definition extract_safety (content : json) : response :=
  match loads_value content with
  | Ret result =>
    if is_dict_with result (str "safe") then jsonify result
    else could_not_verify
  | Raise _ => could_not_verify
  end.

Definition safety_prompt (area : pystr) : json :=
  PList
    [dict [(str "role", PStr (str "system"));
           (str "content", PStr (
              str "You are a strict career safety classifier. "
              ++ str "Only allow mainstream, legal, and ethical career areas suitable for professional coaching. "
              ++ lit "If the area is unsafe, illegal, unethical, or inappropriate (e.g., suicide, sex work, criminal activity), respond ONLY with JSON: {'safe': false, 'reason': '<short reason>'}. "
              ++ lit "If the area is safe and appropriate for coaching, respond ONLY with JSON: {'safe': true}. "
              ++ str "No commentary, no extra text, no markdown."))];
     dict [(str "role", PStr (str "user"));
           (str "content", PStr (
              str "Is the area '" ++ area
              ++ str "' safe and appropriate for career coaching?"))]].

(** [POST /api/check_area], lines 171-213 *)
Definition check_area (cfg : config) (req : request) : M response :=
  ok <- lift (verify_csrf req) ;;
  if negb ok then ret csrf_error
  else if falsy (OPENAI_API_KEY cfg) then ret api_key_error
  else
    data <- lift (get_json req) ;;
    area <- lift (let? a := get_method data (str "area") (PStr []) in
                  strip_method a) ;;
    match area with
    | [] => ret no_area_provided
    | _ :: _ =>
      let prompt := safety_prompt area in
      let headers := auth_headers cfg in
      let payload :=
        dict [(str "model", PStr (OPENAI_MODEL cfg));
              (str "messages", prompt);
              (str "max_tokens", PInt 60);
              (str "temperature", PFloat (Dec false 0 (-1)))] in
      try_ (resp <- post COMPLETIONS_URL headers payload ;;
            content <- lift (completion_content resp) ;;
            ret (extract_safety content))
           (fun e => ret (internal_error e))
    end.

End Server.

(** ** server.py: the page routes *)

Section Pages.

Variable urandom : nat -> Byte.byte.

(** [flask.send_file(path)]: the file response, or the error it raises when
    the file cannot be read. *)
Variable send_file : pystr -> res response.

(** What [os.path.join(os.path.dirname(__file__), 'tutor.html')] evaluates
    to. *)
Variable html_path : pystr.

(** [GET /], lines 66-69. The argument [send_file(html_path)] is evaluated
    before [ensure_csrf_cookie] is entered. *)
Definition index (cfg : config) (req : request) : M response :=
  resp <- lift (send_file html_path) ;;
  ensure_csrf_cookie urandom cfg req resp None.

(** [GET /tutor], lines 71-74 *)
Definition tutor_main (cfg : config) (req : request) : M response :=
  resp <- lift (send_file html_path) ;;
  ensure_csrf_cookie urandom cfg req resp None.

End Pages.

(** ** Concrete surroundings, for the examples *)

(** A completion whose first choice carries [content]. *)
Definition completion (content : json) : json :=
  dict [(str "choices",
         PList [dict [(str "message",
                       dict [(str "role", PStr (str "assistant"));
                             (str "content", content)])]])].

(** An upstream that answers every call with the text [content]. *)
Definition upstream_says (content : pystr) (n : nat) (c : post_call) : res reply :=
  Ret {| reply_json := Ret (completion (PStr content)) |}.

(** An upstream that answers every call with the body [j]. *)
Definition upstream_body (j : json) (n : nat) (c : post_call) : res reply :=
  Ret {| reply_json := Ret j |}.

(** An entropy source that yields the bytes 0, 1, 2, ... *)
Definition counting_entropy (i : nat) : Byte.byte :=
  default Byte.x00 (Byte.of_N (N.of_nat i mod 256)).

(** A rendering of exceptions by class name. *)
Definition exn_name (e : exn) : pystr :=
  match e with
  | TypeError => str "TypeError"
  | AttributeError => str "AttributeError"
  | KeyError => str "KeyError"
  | IndexError => str "IndexError"
  | JSONDecodeError => str "JSONDecodeError"
  | RecursionError => str "RecursionError"
  | HTTPException _ => str "HTTPException"
  | RequestException => str "RequestException"
  end.

(** A request that carries [token] both as cookie and as header. *)
Definition request_with (token : pystr) (parsed : res json) : request :=
  {| cookies := {[ CSRF_COOKIE_NAME := token ]};
     headers := {[ str "x-csrf-token" := token ]};
     get_json := parsed |}.

(** A request without cookie and header. *)
Definition bare_request (parsed : res json) : request :=
  {| cookies := ∅; headers := ∅; get_json := parsed |}.

Definition with_key : config :=
  load_config {[ str "OPENAI_API_KEY" := str "sk-test" ]}.

Definition without_key : config := load_config ∅.

Definition fresh : world := {| sent := []; drawn := 0 |}.

(** A [send_file] that finds every file, and one that finds none. *)
Definition file_found (name : pystr) : res response :=
  Ret {| status := 200; body := FileBody name; set_cookies := [] |}.

Definition file_missing (name : pystr) : res response :=
  Raise (HTTPException 404).

(** An upstream that cannot be reached. *)
Definition upstream_down (n : nat) (c : post_call) : res reply :=
  Raise RequestException.

(** ** Texts of the shape the areas prompt asks for *)

(** A code point that stands for itself inside a JSON string. *)
Definition plain (c : N) : bool :=
  (32 <=? c) && negb (c =? DQUOTE) && negb (c =? ch "\").

Definition quoted (s : pystr) : pystr := DQUOTE :: s ++ [DQUOTE].

(** The elements of a flat array of strings, separated by a comma and a
    space. *)
Fixpoint array_items (l : list pystr) : pystr :=
  match l with
  | [] => []
  | [x] => quoted x
  | x :: r => quoted x ++ str ", " ++ array_items r
  end.

Definition array_text (l : list pystr) : pystr :=
  ch "[" :: array_items l ++ [ch "]"].

(** * Properties *)

(** ** The constant-time comparison *)

Lemma tscmp_loop_nonzero (l r : pystr) (acc : N) :
  acc <> 0 -> tscmp_loop l r acc <> 0.
Proof.
  revert r acc. induction l as [|x l IH]; intros [|y r] acc Hacc; simpl; auto.
  apply IH. intros H. apply N.lor_eq_0_iff in H. tauto.
Qed.

Lemma tscmp_loop_zero (l r : pystr) (acc : N) :
  length l = length r ->
  tscmp_loop l r acc = 0 <-> acc = 0 /\ l = r.
Proof.
  revert r acc. induction l as [|x l IH]; intros [|y r] acc Hlen;
    simpl in *; try discriminate.
  - intuition.
  - injection Hlen as Hlen. rewrite (IH r _ Hlen), N.lor_eq_0_iff.
    rewrite N.lxor_eq_0_iff. split.
    + intros [[-> ->] ->]. auto.
    + intros [-> [= -> ->]]. auto.
Qed.

(** [_tscmp] decides equality of its operands. *)
Lemma tscmp_true_iff (a b : pystr) : tscmp a b = true <-> a = b.
Proof.
  unfold tscmp. destruct (Nat.eqb_spec (length a) (length b)) as [Hlen|Hlen].
  - rewrite N.eqb_eq, (tscmp_loop_zero a b 0 Hlen). tauto.
  - split.
    + intros H. apply N.eqb_eq in H.
      exfalso. revert H. apply tscmp_loop_nonzero. discriminate.
    + intros ->. contradiction.
Qed.

Lemma compare_digest_true_iff (a b : option pystr) :
  compare_digest a b = Ret true <->
  exists t, a = Some t /\ b = Some t /\ isascii t = true.
Proof.
  destruct a as [a|], b as [b|]; simpl;
    try (split; [discriminate | intros (t & ? & ? & _); discriminate]).
  destruct (isascii a) eqn:Ha, (isascii b) eqn:Hb; simpl.
  - split.
    + intros [= H]. apply tscmp_true_iff in H. subst b. eauto.
    + intros (t & [= ->] & [= ->] & _). f_equal. by apply tscmp_true_iff.
  - split; [discriminate | intros (t & [= ->] & [= ->] & _); congruence].
  - split; [discriminate | intros (t & [= ->] & [= ->] & ?); congruence].
  - split; [discriminate | intros (t & [= ->] & [= ->] & ?); congruence].
Qed.

Lemma compare_digest_raises_iff (a b : option pystr) :
  (exists e, compare_digest a b = Raise e) <->
  ~ (exists s t, a = Some s /\ b = Some t /\ isascii s = true /\ isascii t = true).
Proof.
  destruct a as [a|], b as [b|]; simpl;
    try (split; [intros _ (s & t & ? & ? & _); discriminate | eauto]).
  destruct (isascii a) eqn:Ha, (isascii b) eqn:Hb; simpl.
  - split; [intros [e He]; discriminate|].
    intros H. exfalso. apply H. by exists a, b.
  - split; [|eauto]. intros _ (s & t & _ & [= <-] & _ & ?). congruence.
  - split; [|eauto]. intros _ (s & t & [= <-] & _ & ? & _). congruence.
  - split; [|eauto]. intros _ (s & t & [= <-] & _ & ? & _). congruence.
Qed.

(** ** str.strip *)

Lemma lstrip_nil_iff (s : pystr) : lstrip s = [] <-> forallb isspace s = true.
Proof.
  induction s as [|c s IH]; simpl; [tauto|].
  destruct (isspace c); simpl; [exact IH|].
  split; discriminate.
Qed.

Lemma lstrip_head (s : pystr) (c : N) (r : pystr) :
  lstrip s = c :: r -> isspace c = false.
Proof.
  induction s as [|x s IH]; simpl; [discriminate|].
  destruct (isspace x) eqn:Hx; [exact IH|].
  intros [= -> _]. exact Hx.
Qed.

(** Stripping leaves nothing exactly when every code point is whitespace. *)
Lemma strip_nil_iff (s : pystr) : strip s = [] <-> forallb isspace s = true.
Proof.
  unfold strip, rstrip. split.
  - intros H. apply (f_equal (@rev N)) in H. rewrite rev_involutive in H.
    simpl in H. apply lstrip_nil_iff in H.
    destruct (lstrip s) as [|c r] eqn:Hs; [by apply lstrip_nil_iff|].
    apply lstrip_head in Hs.
    rewrite forallb_forall in H. specialize (H c).
    rewrite H in Hs; [discriminate|]. apply in_rev. rewrite rev_involutive.
    by left.
  - intros H. apply lstrip_nil_iff in H. by rewrite H.
Qed.

(** ** The decoder has fuel enough *)

Lemma skip_ws_length (s : pystr) : (length (skip_ws s) <= length s)%nat.
Proof.
  induction s as [|c s IH]; simpl; [lia|].
  destruct (is_ws c); simpl; lia.
Qed.

Lemma after_prefix_length (p s rest : pystr) :
  after_prefix p s = Some rest -> (length rest + length p = length s)%nat.
Proof.
  revert s. induction p as [|a p IH]; intros [|b s]; simpl;
    try discriminate; try (intros [= <-]; simpl; lia).
  destruct (a =? b); [|discriminate].
  intros H. apply IH in H. lia.
Qed.

Lemma span_digits_length (s ds rest : pystr) :
  span_digits s = (ds, rest) -> (length ds + length rest = length s)%nat.
Proof.
  revert ds rest. induction s as [|c s IH]; simpl; intros ds rest.
  - intros [= <- <-]. reflexivity.
  - destruct (isdigit c).
    + destruct (span_digits s) as [ds' rest'].
      intros [= <- <-]. specialize (IH _ _ eq_refl). simpl. lia.
    + intros [= <- <-]. reflexivity.
Qed.


Lemma scanstring_consumes (n : nat) :
  forall s acc x rest,
    (length s <= n)%nat ->
    scanstring s acc = Scanned x rest -> (length rest < length s)%nat.
Proof.
  induction n as [|n IH]; intros s acc x rest Hn H.
  - destruct s; [discriminate | simpl in Hn; lia].
  - destruct s as [|c r]; [discriminate|].
    cbn [scanstring length] in Hn, H |- *.
    repeat match type of H with
           | Scanned _ _ = Scanned _ _ => injection H as <- <-
           | Malformed = _ => discriminate
           | scanstring ?t _ = _ => apply IH in H; cbn [length] in *; lia
           | context [match ?t with _ => _ end] =>
             destruct t eqn:?; cbn [length] in *
           end; lia.
Qed.

Lemma scanstring_not_exhausted (n : nat) :
  forall s acc, (length s <= n)%nat -> scanstring s acc <> Exhausted.
Proof.
  induction n as [|n IH]; intros s acc Hn.
  - destruct s; [discriminate | simpl in Hn; lia].
  - destruct s as [|c r]; [discriminate|].
    cbn [scanstring length] in Hn |- *.
    repeat match goal with
           | |- Scanned _ _ <> _ => discriminate
           | |- Malformed <> _ => discriminate
           | |- scanstring ?t _ <> _ => apply IH; cbn [length] in *; lia
           | |- context [match ?t with _ => _ end] =>
             destruct t eqn:?; cbn [length] in *
           end.
Qed.

Lemma span_digits_head (d : N) (r ds rest : pystr) :
  isdigit d = true -> span_digits (d :: r) = (ds, rest) ->
  (length rest <= length r)%nat.
Proof.
  intros Hd. cbn [span_digits]. rewrite Hd.
  destruct (span_digits r) as [ds' rest'] eqn:E. intros [= <- <-].
  apply span_digits_length in E. lia.
Qed.

Lemma match_number_consumes (s : pystr) (v : json) (rest : pystr) :
  match_number s = Some (v, rest) -> (length rest < length s)%nat.
Proof.
  unfold match_number. intros H.
  match type of H with (match ?X with _ => _ end) = _ =>
    destruct X as [neg s1] eqn:Hsign end.
  assert (Hs1 : (length s1 <= length s)%nat).
  { destruct s as [|c r]; [by injection Hsign as <- <-|].
    destruct (c =? ch "-"); injection Hsign as <- <-; cbn [length]; lia. }
  destruct s1 as [|d r]; [discriminate|].
  destruct (isdigit d) eqn:Hd; [|discriminate].
  match type of H with (match ?X with _ => _ end) = _ =>
    destruct X as [int_ds s2] eqn:Hint end.
  assert (Hs2 : (length s2 <= length r)%nat).
  { destruct (d =? ch "0"); [by injection Hint as <- <-|].
    by eapply span_digits_head. }
  match type of H with (match ?X with _ => _ end) = _ =>
    destruct X as [frac_ds s3] eqn:Hfrac end.
  assert (Hs3 : (length s3 <= length s2)%nat).
  { destruct s2 as [|p r2]; [by injection Hfrac as <- <-|].
    destruct (p =? ch "."); [|by injection Hfrac as <- <-].
    destruct (span_digits r2) as [[|f fd] r3] eqn:E;
      injection Hfrac as <- <-; [lia|].
    apply span_digits_length in E. cbn [length] in *. lia. }
  match type of H with (match ?X with _ => _ end) = _ =>
    destruct X as [exponent s4] eqn:Hexp end.
  assert (Hs4 : (length s4 <= length s3)%nat).
  { destruct s3 as [|e r3]; [by injection Hexp as <- <-|].
    destruct ((e =? ch "e") || (e =? ch "E")); [|by injection Hexp as <- <-].
    match type of Hexp with (match ?X with _ => _ end) = _ =>
      destruct X as [eneg r4] eqn:Hsgn end.
    assert (Hr4 : (length r4 <= length r3)%nat).
    { destruct r3 as [|x r']; [by injection Hsgn as <- <-|].
      destruct (x =? ch "-"); [injection Hsgn as <- <-; cbn [length]; lia|].
      destruct (x =? ch "+"); injection Hsgn as <- <-; cbn [length]; lia. }
    destruct (span_digits r4) as [[|f ed] r5] eqn:E;
      injection Hexp as <- <-; [lia|].
    apply span_digits_length in E. cbn [length] in *. lia. }
  cbn [length] in Hs1.
  destruct frac_ds, exponent; injection H as <- <-; lia.
Qed.

Lemma scan_atom_consumes (s : pystr) (v : json) (rest : pystr) :
  scan_atom s = Scanned v rest -> (length rest < length s)%nat.
Proof.
  unfold scan_atom. intros H.
  repeat match type of H with
         | (match after_prefix ?p s with _ => _ end) = _ =>
           let E := fresh "E" in
           destruct (after_prefix p s) eqn:E;
             [apply after_prefix_length in E; injection H as <- <-;
              cbn [length str map list_ascii_of_string] in E; lia|]
         end.
  destruct (match_number s) as [[v' rest']|] eqn:Hnum; [|discriminate].
  injection H as <- <-. by eapply match_number_consumes.
Qed.

Lemma scan_atom_not_exhausted (s : pystr) : scan_atom s <> Exhausted.
Proof.
  unfold scan_atom.
  repeat match goal with
         | |- context [match ?t with _ => _ end] => destruct t
         end; discriminate.
Qed.

Lemma scan_map_scanned {A B} (f : A -> B) (m : scan A) (v : B) (rest : pystr) :
  scan_map f m = Scanned v rest -> exists x, m = Scanned x rest.
Proof. destruct m; simpl; [intros [= <- <-]; eauto | discriminate..]. Qed.

(** Facts on lengths that the case analyses below leave to [lia]. *)
Ltac lengths :=
  repeat match goal with
         | H : skip_ws ?s = _ |- _ =>
           lazymatch goal with
           | _ : (length (skip_ws s) <= length s)%nat |- _ => fail
           | _ => pose proof (skip_ws_length s)
           end
         | H : scanstring ?s _ = Scanned _ _ |- _ =>
           apply (scanstring_consumes (length s) s) in H; [|lia]
         | H : scan_atom _ = Scanned _ _ |- _ => apply scan_atom_consumes in H
         end;
  repeat match goal with
         | H : skip_ws ?s = _ |- _ => rewrite H in *
         end;
  cbn [length] in *.

Lemma scan_consumes (fuel : nat) :
  (forall s v rest,
     scan_once fuel s = Scanned v rest -> (length rest < length s)%nat)
  /\ (forall s acc v rest,
        parse_elems fuel s acc = Scanned v rest -> (length rest < length s)%nat)
  /\ (forall s acc v rest,
        parse_members fuel s acc = Scanned v rest -> (length rest < length s)%nat).
Proof.
  induction fuel as [|fuel (IHv & IHe & IHm)];
    [repeat split; intros; discriminate|].
  split; [|split].
  - intros [|c r] v rest H; cbn [scan_once] in H; [discriminate|].
    destruct (c =? DQUOTE).
    { apply scan_map_scanned in H as [x H]. lengths. lia. }
    destruct (c =? ch "{").
    { destruct (skip_ws r) as [|c' r'] eqn:Hws; [discriminate|].
      destruct (c' =? ch "}"); [injection H as <- <- | apply IHm in H];
        lengths; lia. }
    destruct (c =? ch "[").
    { destruct (skip_ws r) as [|c' r'] eqn:Hws; [discriminate|].
      destruct (c' =? ch "]"); [injection H as <- <- | apply IHe in H];
        lengths; lia. }
    lengths. lia.
  - intros s acc v rest H. cbn [parse_elems] in H.
    destruct (scan_once fuel s) as [v0 rest0| |] eqn:Hv; try discriminate.
    apply IHv in Hv.
    destruct (skip_ws rest0) as [|c r] eqn:Hws; [discriminate|].
    destruct (c =? ch "]"); [injection H as <- <-; lengths; lia|].
    destruct (c =? ch ","); [|discriminate].
    apply IHe in H. pose proof (skip_ws_length r). lengths. lia.
  - intros [|q r0] acc v rest H; cbn [parse_members] in H; [discriminate|].
    destruct (q =? DQUOTE); [|discriminate].
    destruct (scanstring r0 []) as [k rest1| |] eqn:Hk; try discriminate.
    destruct (skip_ws rest1) as [|colon r1] eqn:Hws1; [discriminate|].
    destruct (colon =? ch ":"); [|discriminate].
    destruct (scan_once fuel (skip_ws r1)) as [v0 rest2| |] eqn:Hv;
      try discriminate.
    apply IHv in Hv. pose proof (skip_ws_length r1).
    destruct (skip_ws rest2) as [|c r] eqn:Hws2; [discriminate|].
    destruct (c =? ch "}"); [injection H as <- <-; lengths; lia|].
    destruct (c =? ch ","); [|discriminate].
    apply IHm in H. pose proof (skip_ws_length r). lengths. lia.
Qed.

Lemma scan_fuel (fuel : nat) :
  (forall s, (2 * length s + 1 <= fuel)%nat -> scan_once fuel s <> Exhausted)
  /\ (forall s acc,
        (2 * length s + 2 <= fuel)%nat -> parse_elems fuel s acc <> Exhausted)
  /\ (forall s acc,
        (2 * length s + 2 <= fuel)%nat -> parse_members fuel s acc <> Exhausted).
Proof.
  induction fuel as [|fuel (IHv & IHe & IHm)]; [repeat split; intros; lia|].
  split; [|split].
  - intros [|c r] Hf; cbn [scan_once]; [discriminate|]. cbn [length] in Hf.
    destruct (c =? DQUOTE).
    { pose proof (scanstring_not_exhausted (length r) r [] (le_n _)).
      by destruct (scanstring r []). }
    destruct (c =? ch "{").
    { destruct (skip_ws r) as [|c' r'] eqn:Hws; [discriminate|].
      destruct (c' =? ch "}"); [discriminate|].
      apply IHm. lengths. lia. }
    destruct (c =? ch "[").
    { destruct (skip_ws r) as [|c' r'] eqn:Hws; [discriminate|].
      destruct (c' =? ch "]"); [discriminate|].
      apply IHe. lengths. lia. }
    apply scan_atom_not_exhausted.
  - intros s acc Hf. cbn [parse_elems].
    destruct (scan_once fuel s) as [v0 rest0| |] eqn:Hv; try discriminate.
    + apply (proj1 (scan_consumes fuel)) in Hv.
      destruct (skip_ws rest0) as [|c r] eqn:Hws; [discriminate|].
      destruct (c =? ch "]"); [discriminate|].
      destruct (c =? ch ","); [|discriminate].
      apply IHe. pose proof (skip_ws_length r). lengths. lia.
    + exfalso. revert Hv. apply IHv. lia.
  - intros [|q r0] acc Hf; cbn [parse_members]; [discriminate|].
    cbn [length] in Hf.
    destruct (q =? DQUOTE); [|discriminate].
    destruct (scanstring r0 []) as [k rest1| |] eqn:Hk; try discriminate.
    + destruct (skip_ws rest1) as [|colon r1] eqn:Hws1; [discriminate|].
      destruct (colon =? ch ":"); [|discriminate].
      pose proof (skip_ws_length r1).
      destruct (scan_once fuel (skip_ws r1)) as [v0 rest2| |] eqn:Hv;
        try discriminate.
      * apply (proj1 (scan_consumes fuel)) in Hv.
        destruct (skip_ws rest2) as [|c r] eqn:Hws2; [discriminate|].
        destruct (c =? ch "}"); [discriminate|].
        destruct (c =? ch ","); [|discriminate].
        apply IHm. pose proof (skip_ws_length r). lengths. lia.
      * exfalso. revert Hv. apply IHv. lengths. lia.
    + exfalso. revert Hk. by apply (scanstring_not_exhausted (length r0)).
Qed.

(** [json_loads] never runs out of fuel: it returns a value or raises
    [JSONDecodeError]. *)
Lemma json_loads_total (s : pystr) :
  (exists v, json_loads s = Ret v) \/ json_loads s = Raise JSONDecodeError.
Proof.
  unfold json_loads.
  assert (H : scan_once (2 * length s + 1) (skip_ws s) <> Exhausted).
  { apply scan_fuel. pose proof (skip_ws_length s). lia. }
  destruct (after_prefix [65279] s); [by right|].
  destruct (scan_once _ _) as [v rest| |]; [|by right|contradiction].
  destruct (skip_ws rest); eauto.
Qed.

(** ** The decoder on sample texts *)

Example loads_array :
  json_loads (lit "['A', 'B']") = Ret (PList [PStr (str "A"); PStr (str "B")]).
Proof. vm_compute. reflexivity. Qed.

Example loads_object :
  json_loads (lit " {'safe': false, 'reason': 'x', 'n': [1, -2.50e3, null]} ")
  = Ret (dict [(str "safe", PBool false);
               (str "reason", PStr (str "x"));
               (str "n", PList [PInt 1; PFloat (Dec true 250 1); PNone])]).
Proof. vm_compute. reflexivity. Qed.

Example loads_duplicate_key :
  json_loads (lit "{'a': 1, 'a': 2}") = Ret (dict [(str "a", PInt 2)]).
Proof. vm_compute. reflexivity. Qed.

Example loads_surrogate_pair :
  json_loads (lit "'\ud83d\ude00 \u00e9 \t'") = Ret (PStr [128512; 32; 233; 32; 9]).
Proof. vm_compute. reflexivity. Qed.

Example loads_rejects :
  json_loads (lit "[1,]") = Raise JSONDecodeError
  /\ json_loads (lit "01") = Raise JSONDecodeError
  /\ json_loads (lit "1.") = Raise JSONDecodeError
  /\ json_loads (lit "{'a': 1,}") = Raise JSONDecodeError
  /\ json_loads (lit "['A'] and more") = Raise JSONDecodeError
  /\ json_loads [] = Raise JSONDecodeError.
Proof. repeat split; vm_compute; reflexivity. Qed.

(** ** CSRF verification *)

Lemma verify_csrf_total (req : request) : exists b, verify_csrf req = Ret b.
Proof.
  unfold verify_csrf.
  destruct (falsy _ || falsy _); [eauto|].
  destruct (compare_digest _ _); simpl; eauto.
Qed.

Lemma verify_csrf_true_iff (req : request) :
  verify_csrf req = Ret true <->
  falsy (cookies req !! CSRF_COOKIE_NAME) = false
  /\ falsy (headers_get req (str "X-CSRF-Token")) = false
  /\ compare_digest (cookies req !! CSRF_COOKIE_NAME)
       (headers_get req (str "X-CSRF-Token")) = Ret true.
Proof.
  unfold verify_csrf.
  destruct (falsy (cookies req !! _)), (falsy (headers_get req _)); simpl;
    try (split; [discriminate | intros (? & ? & _); discriminate]).
  destruct (compare_digest _ _) as [[]|]; simpl;
    (split; [try discriminate; auto | intros (_ & _ & ?); congruence]).
Qed.

(** C1. [verify_csrf] returns false when the cookie token or the
    X-CSRF-Token header token is absent or empty. It returns true exactly
    when both are present, non-empty, and the constant-time comparison
    reports them equal; whenever the comparison does not raise, as for
    ASCII tokens, that is exactly when the two tokens are equal, code point
    for code point. An exception raised by the comparison (it raises for a
    token with a non-ASCII code point) makes the verdict false, and
    [verify_csrf] itself never raises. *)
Theorem verify_csrf_spec (req : request) :
  let cookie_token := cookies req !! CSRF_COOKIE_NAME in
  let header_token := headers_get req (str "X-CSRF-Token") in
  (falsy cookie_token = true \/ falsy header_token = true ->
   verify_csrf req = Ret false)
  /\ (verify_csrf req = Ret true <->
      falsy cookie_token = false /\ falsy header_token = false
      /\ compare_digest cookie_token header_token = Ret true)
  /\ (forall b, falsy cookie_token = false -> falsy header_token = false ->
      compare_digest cookie_token header_token = Ret b ->
      verify_csrf req = Ret b /\ (b = true <-> cookie_token = header_token))
  /\ (forall a b, cookie_token = Some a -> header_token = Some b ->
      a <> [] -> b <> [] -> isascii a = true -> isascii b = true ->
      (verify_csrf req = Ret true <-> a = b))
  /\ (forall e, compare_digest cookie_token header_token = Raise e ->
      verify_csrf req = Ret false)
  /\ (exists b, verify_csrf req = Ret b).
Proof.
  intros c h.
  assert (Hverdict : forall b, falsy c = false -> falsy h = false ->
    compare_digest c h = Ret b ->
    verify_csrf req = Ret b /\ (b = true <-> c = h)).
  { intros b Hc Hh Hb. unfold verify_csrf. fold c h. rewrite Hc, Hh, Hb.
    split; [reflexivity|].
    destruct c as [a|], h as [t|]; try discriminate. simpl in Hb.
    destruct (isascii a && isascii t); [|discriminate].
    injection Hb as <-. rewrite tscmp_true_iff. split; congruence. }
  split; [|split; [|split; [|split; [|split]]]].
  - unfold verify_csrf. fold c h.
    intros [-> | ->]; [reflexivity | by rewrite orb_true_r].
  - apply verify_csrf_true_iff.
  - exact Hverdict.
  - intros a b Ha Hb Hane Hbne Haa Hab.
    destruct (Hverdict (tscmp a b)) as [-> Heq].
    + rewrite Ha. by destruct a.
    + rewrite Hb. by destruct b.
    + rewrite Ha, Hb. simpl. by rewrite Haa, Hab.
    + rewrite Ha, Hb in Heq. split.
      * intros [= Ht]. apply Heq in Ht. congruence.
      * intros ->. f_equal. by apply Heq.
  - intros e He. unfold verify_csrf. fold c h.
    destruct (falsy c || falsy h); [reflexivity|]. by rewrite He.
  - apply verify_csrf_total.
Qed.

(** The four cases of the double-submit check, on concrete requests. *)
Example verify_csrf_matching :
  verify_csrf (request_with (str "k3Zq-9_a") (Ret PNone)) = Ret true.
Proof. vm_compute. reflexivity. Qed.

Example verify_csrf_nothing : verify_csrf (bare_request (Ret PNone)) = Ret false.
Proof. vm_compute. reflexivity. Qed.

Example verify_csrf_cookie_only :
  verify_csrf {| cookies := {[ CSRF_COOKIE_NAME := str "abc" ]};
                 headers := ∅; get_json := Ret PNone |} = Ret false.
Proof. vm_compute. reflexivity. Qed.

Example verify_csrf_header_only :
  verify_csrf {| cookies := ∅;
                 headers := {[ str "x-csrf-token" := str "abc" ]};
                 get_json := Ret PNone |} = Ret false.
Proof. vm_compute. reflexivity. Qed.

Example verify_csrf_mismatch :
  verify_csrf {| cookies := {[ CSRF_COOKIE_NAME := str "abc" ]};
                 headers := {[ str "x-csrf-token" := str "abd" ]};
                 get_json := Ret PNone |} = Ret false.
Proof. vm_compute. reflexivity. Qed.

(** Equal tokens holding U+00E9: the comparison raises, the verdict is
    false. *)
Example verify_csrf_non_ascii :
  compare_digest (Some [233]) (Some [233]) = Raise TypeError
  /\ verify_csrf (request_with [233] (Ret PNone)) = Ret false.
Proof. split; vm_compute; reflexivity. Qed.

Lemma verify_csrf_spec_witness :
  verify_csrf (bare_request (Ret PNone)) = Ret false
  /\ verify_csrf (request_with (str "k3Zq-9_a") (Ret PNone)) = Ret true.
Proof.
  split.
  - apply (proj1 (verify_csrf_spec (bare_request (Ret PNone)))).
    left. reflexivity.
  - apply (proj1 (proj2 (verify_csrf_spec
                           (request_with (str "k3Zq-9_a") (Ret PNone))))).
    vm_compute. auto.
Defined.

(** ** The gates of the three handlers *)

Section Handlers.

Variable loads : pystr -> res json.
Variable requests_post : nat -> post_call -> res reply.
Variable exn_str : exn -> pystr.

Local Arguments str : simpl never.
Local Arguments dict : simpl never.
Local Arguments jsonify : simpl never.
Local Arguments falsy : simpl never.

Ltac enter :=
  unfold get_areas, chat, check_area, bind, lift, ret;
  repeat match goal with
         | H : verify_csrf _ = _ |- _ => rewrite H
         | H : falsy _ = _ |- _ => rewrite H
         | H : get_json _ = _ |- _ => rewrite H
         end;
  simpl.

(** C2. When CSRF verification fails, each of the three handlers answers
    403 with [{"error": "CSRF token missing or invalid"}] and sends nothing
    upstream; and a handler that has sent something upstream ran on a
    request whose CSRF verification succeeded. *)
Theorem csrf_gate (cfg : config) (req : request) (w : world) :
  let forbidden :=
    with_status
      (jsonify (dict [(str "error", PStr (str "CSRF token missing or invalid"))]))
      403 in
  (verify_csrf req = Ret false ->
   get_areas loads requests_post exn_str cfg req w = (Ret forbidden, w)
   /\ chat requests_post exn_str cfg req w = (Ret forbidden, w)
   /\ check_area loads requests_post exn_str cfg req w = (Ret forbidden, w))
  /\ (sent (snd (get_areas loads requests_post exn_str cfg req w)) <> sent w ->
      verify_csrf req = Ret true)
  /\ (sent (snd (chat requests_post exn_str cfg req w)) <> sent w ->
      verify_csrf req = Ret true)
  /\ (sent (snd (check_area loads requests_post exn_str cfg req w)) <> sent w ->
      verify_csrf req = Ret true).
Proof.
  intros forbidden.
  assert (Hgate : verify_csrf req = Ret false ->
    get_areas loads requests_post exn_str cfg req w = (Ret forbidden, w)
    /\ chat requests_post exn_str cfg req w = (Ret forbidden, w)
    /\ check_area loads requests_post exn_str cfg req w = (Ret forbidden, w)).
  { intros H. repeat split; enter; reflexivity. }
  split; [exact Hgate|].
  destruct (verify_csrf_total req) as [[] Hb]; [auto|].
  destruct (Hgate Hb) as (-> & -> & ->). simpl. repeat split; congruence.
Qed.

(** C3. With the API key missing (unset or empty), each of the three
    handlers, once CSRF verification has passed, answers 500 with
    [{"error": "API key missing"}]: before the body is read, so whatever the
    body is, and without sending anything upstream. *)
Theorem api_key_gate (cfg : config) (req : request) (w : world) :
  verify_csrf req = Ret true ->
  falsy (OPENAI_API_KEY cfg) = true ->
  let missing :=
    with_status (jsonify (dict [(str "error", PStr (str "API key missing"))])) 500 in
  get_areas loads requests_post exn_str cfg req w = (Ret missing, w)
  /\ chat requests_post exn_str cfg req w = (Ret missing, w)
  /\ check_area loads requests_post exn_str cfg req w = (Ret missing, w).
Proof.
  intros Hcsrf Hkey missing. repeat split; enter; reflexivity.
Qed.

(** C4. Past the CSRF and API-key gates, a [coach] field that is empty or
    holds only whitespace makes [get_areas] answer exactly [{"areas": []}]
    and send nothing upstream. *)
Theorem blank_coach (cfg : config) (req : request) (w : world)
    (d : gmap pystr json) (coach : pystr) :
  verify_csrf req = Ret true ->
  falsy (OPENAI_API_KEY cfg) = false ->
  get_json req = Ret (PDict d) ->
  d !! str "coach" = Some (PStr coach) ->
  forallb isspace coach = true ->
  get_areas loads requests_post exn_str cfg req w
  = (Ret (jsonify (dict [(str "areas", PList [])])), w).
Proof.
  intros Hcsrf Hkey Hjson Hcoach Hblank. enter.
  rewrite Hcoach. simpl.
  apply strip_nil_iff in Hblank. rewrite Hblank. reflexivity.
Qed.

(** A body without a [coach] field is answered the same way. *)
Lemma absent_coach (cfg : config) (req : request) (w : world)
    (d : gmap pystr json) :
  verify_csrf req = Ret true ->
  falsy (OPENAI_API_KEY cfg) = false ->
  get_json req = Ret (PDict d) ->
  d !! str "coach" = None ->
  get_areas loads requests_post exn_str cfg req w
  = (Ret (jsonify (dict [(str "areas", PList [])])), w).
Proof.
  intros Hcsrf Hkey Hjson Hcoach. enter. rewrite Hcoach. reflexivity.
Qed.

(** C7. Past the CSRF and API-key gates, an [area] field that is empty or
    holds only whitespace makes [check_area] answer exactly
    [{"safe": false, "reason": "No area provided"}] and send nothing
    upstream. *)
Theorem blank_area (cfg : config) (req : request) (w : world)
    (d : gmap pystr json) (area : pystr) :
  verify_csrf req = Ret true ->
  falsy (OPENAI_API_KEY cfg) = false ->
  get_json req = Ret (PDict d) ->
  d !! str "area" = Some (PStr area) ->
  forallb isspace area = true ->
  check_area loads requests_post exn_str cfg req w
  = (Ret (jsonify (dict [(str "safe", PBool false);
                         (str "reason", PStr (str "No area provided"))])), w).
Proof.
  intros Hcsrf Hkey Hjson Harea Hblank. enter.
  rewrite Harea. simpl.
  apply strip_nil_iff in Hblank. rewrite Hblank. reflexivity.
Qed.

(** C10. Past the CSRF and API-key gates, a JSON object whose [coach]
    (for [get_areas]) or [area] (for [check_area]) field is present and not
    a string makes the handler raise [AttributeError] out of the view: no
    response is returned, neither the benign default nor a JSON error. *)
Theorem non_string_field_raises (cfg : config) (req : request) (w : world)
    (d : gmap pystr json) (v : json) :
  verify_csrf req = Ret true ->
  falsy (OPENAI_API_KEY cfg) = false ->
  get_json req = Ret (PDict d) ->
  (forall s, v <> PStr s) ->
  (d !! str "coach" = Some v ->
   get_areas loads requests_post exn_str cfg req w = (Raise AttributeError, w))
  /\ (d !! str "area" = Some v ->
      check_area loads requests_post exn_str cfg req w = (Raise AttributeError, w)).
Proof.
  intros Hcsrf Hkey Hjson Hv.
  split; intros Hfield; enter; rewrite Hfield; simpl;
    destruct v; try reflexivity; by destruct (Hv s).
Qed.

End Handlers.

Lemma csrf_gate_witness :
  get_areas json_loads (upstream_says []) exn_name with_key
    (bare_request (Ret (dict [(str "coach", PStr (str "nurse"))]))) fresh
  = (Ret csrf_error, fresh).
Proof.
  apply (proj1 (csrf_gate json_loads (upstream_says []) exn_name with_key
                  (bare_request (Ret (dict [(str "coach", PStr (str "nurse"))])))
                  fresh)).
  reflexivity.
Defined.

Lemma api_key_gate_witness :
  get_areas json_loads (upstream_says []) exn_name without_key
    (request_with (str "tok") (Raise (HTTPException 400))) fresh
  = (Ret api_key_error, fresh).
Proof.
  apply (api_key_gate json_loads (upstream_says []) exn_name without_key
           (request_with (str "tok") (Raise (HTTPException 400))) fresh);
    vm_compute; reflexivity.
Defined.

Lemma blank_coach_witness :
  get_areas json_loads (upstream_says []) exn_name with_key
    (request_with (str "tok") (Ret (dict [(str "coach", PStr (str "   "))])))
    fresh
  = (Ret (jsonify (dict [(str "areas", PList [])])), fresh).
Proof.
  apply (blank_coach json_loads (upstream_says []) exn_name with_key _ fresh
           (list_to_map [(str "coach", PStr (str "   "))]) (str "   "));
    vm_compute; reflexivity.
Defined.

Lemma blank_area_witness :
  check_area json_loads (upstream_says []) exn_name with_key
    (request_with (str "tok") (Ret (dict [(str "area", PStr [])]))) fresh
  = (Ret (jsonify (dict [(str "safe", PBool false);
                         (str "reason", PStr (str "No area provided"))])), fresh).
Proof.
  apply (blank_area json_loads (upstream_says []) exn_name with_key _ fresh
           (list_to_map [(str "area", PStr [])]) []);
    vm_compute; reflexivity.
Defined.


Lemma non_string_field_raises_witness :
  get_areas json_loads (upstream_says []) exn_name with_key
    (request_with (str "tok") (Ret (dict [(str "coach", PInt 5)]))) fresh
  = (Raise AttributeError, fresh)
  /\ check_area json_loads (upstream_says []) exn_name with_key
       (request_with (str "tok") (Ret (dict [(str "area", PInt 5)]))) fresh
     = (Raise AttributeError, fresh).
Proof.
  split.
  - refine (proj1 (non_string_field_raises json_loads (upstream_says [])
                     exn_name with_key
                     (request_with (str "tok") (Ret (dict [(str "coach", PInt 5)])))
                     fresh (list_to_map [(str "coach", PInt 5)]) (PInt 5)
                     _ _ _ _) _);
      try (vm_compute; reflexivity).
    intros s. discriminate.
  - refine (proj2 (non_string_field_raises json_loads (upstream_says [])
                     exn_name with_key
                     (request_with (str "tok") (Ret (dict [(str "area", PInt 5)])))
                     fresh (list_to_map [(str "area", PInt 5)]) (PInt 5)
                     _ _ _ _) _);
      try (vm_compute; reflexivity).
    intros s. discriminate.
Defined.

(** ** str.find and slicing *)

Lemma index_from_absent (c : N) (s : pystr) (i : Z) :
  c ∉ s -> index_from c s i = (-1)%Z.
Proof.
  revert i. induction s as [|x s IH]; intros i Hc; simpl; [reflexivity|].
  apply not_elem_of_cons in Hc as [Hx Hs].
  destruct (N.eqb_spec x c); [congruence | by apply IH].
Qed.

Lemma index_from_first (c : N) (pre post : pystr) (i : Z) :
  c ∉ pre -> index_from c (pre ++ c :: post) i = (i + Z.of_nat (length pre))%Z.
Proof.
  revert i. induction pre as [|x pre IH]; intros i Hc; simpl.
  - rewrite N.eqb_refl. lia.
  - apply not_elem_of_cons in Hc as [Hx Hpre].
    destruct (N.eqb_spec x c); [congruence|]. rewrite IH by done. lia.
Qed.

Lemma clip_inside (len i : Z) : (0 <= i <= len)%Z -> clip len i = i.
Proof. unfold clip. intros H. destruct (Z.ltb_spec i 0); lia. Qed.

Lemma find_absent (s : pystr) (c : N) : c ∉ s -> find s c 0 = (-1)%Z.
Proof.
  intros Hc. unfold find. rewrite clip_inside by lia.
  change (Z.to_nat 0) with 0%nat. rewrite drop_0. by apply index_from_absent.
Qed.

Lemma find_first (c : N) (pre post : pystr) :
  c ∉ pre -> find (pre ++ c :: post) c 0 = Z.of_nat (length pre).
Proof.
  intros Hc. unfold find. rewrite clip_inside by lia.
  change (Z.to_nat 0) with 0%nat. rewrite drop_0. by rewrite index_from_first.
Qed.

Lemma find_after (c : N) (pre mid post : pystr) :
  c ∉ mid ->
  find (pre ++ mid ++ c :: post) c (Z.of_nat (length pre))
  = Z.of_nat (length pre + length mid).
Proof.
  intros Hc. unfold find.
  rewrite clip_inside by (rewrite length_app; lia).
  rewrite Nat2Z.id, drop_app_length, index_from_first by done. lia.
Qed.

Lemma find_after_absent (c : N) (pre mid : pystr) :
  c ∉ mid -> find (pre ++ mid) c (Z.of_nat (length pre)) = (-1)%Z.
Proof.
  intros Hc. unfold find.
  rewrite clip_inside by (rewrite length_app; lia).
  rewrite Nat2Z.id, drop_app_length. by apply index_from_absent.
Qed.

Lemma slice_middle (pre mid post : pystr) :
  slice (pre ++ mid ++ post) (Z.of_nat (length pre))
    (Z.of_nat (length pre + length mid)) = mid.
Proof.
  unfold slice.
  rewrite !clip_inside by (rewrite !length_app; lia).
  replace (Z.to_nat (Z.of_nat (length pre + length mid) - Z.of_nat (length pre)))
    with (length mid) by lia.
  by rewrite Nat2Z.id, drop_app_length, take_app_length.
Qed.

(** In a text with an opening bracket, the first one, and a closing bracket
    after it, the first one: the two [find]s locate them and the slice is
    the text from the one through the other. *)
Lemma bracket_slice (pre mid post : pystr) :
  ch "[" ∉ pre -> ch "]" ∉ mid ->
  let s := pre ++ ch "[" :: mid ++ ch "]" :: post in
  let start := find s (ch "[") 0 in
  let end_ := find s (ch "]") start in
  start = Z.of_nat (length pre)
  /\ end_ = Z.of_nat (length pre + S (length mid))
  /\ slice s start (end_ + 1) = ch "[" :: mid ++ [ch "]"].
Proof.
  intros Ho Hc s start end_.
  assert (Hstart : start = Z.of_nat (length pre)) by by apply find_first.
  assert (Hend : end_ = Z.of_nat (length pre + S (length mid))).
  { unfold end_. rewrite Hstart.
    apply (find_after (ch "]") pre (ch "[" :: mid) post).
    apply not_elem_of_cons. split; [discriminate | done]. }
  repeat split; [done..|]. rewrite Hstart, Hend.
  replace (Z.of_nat (length pre + S (length mid)) + 1)%Z
    with (Z.of_nat (length pre + length (ch "[" :: mid ++ [ch "]"])))
    by (simpl; rewrite length_app; simpl; lia).
  replace s with (pre ++ (ch "[" :: mid ++ [ch "]"]) ++ post)
    by (unfold s; simpl; by rewrite <- app_assoc).
  apply slice_middle.
Qed.

(** ** The areas in the completion text *)

Section Extraction.

Variable loads : pystr -> res json.

Local Arguments str : simpl never.
Local Arguments dict : simpl never.
Local Arguments jsonify : simpl never.
Local Arguments ch : simpl never.

(** When parsing the whole text raises, the text from the first opening
    bracket through the first closing bracket after it is parsed instead. *)
Lemma extract_areas_sliced (s : pystr) (e : exn) (pre mid post : pystr) :
  loads s = Raise e ->
  s = pre ++ ch "[" :: mid ++ ch "]" :: post ->
  ch "[" ∉ pre -> ch "]" ∉ mid ->
  extract_areas loads (PStr s)
  = match loads (ch "[" :: mid ++ [ch "]"]) with
    | Ret (PList l) => Ret (jsonify (dict [(str "areas", PList l)]))
    | _ => Ret (jsonify (dict [(str "areas", PList [])]))
    end.
Proof.
  intros He Hs Ho Hc. unfold extract_areas, no_areas. simpl. rewrite He.
  destruct (bracket_slice pre mid post Ho Hc) as (Hstart & Hend & Hslice).
  rewrite <- Hs in Hstart, Hend, Hslice. rewrite Hslice, Hend, Hstart.
  assert ((Z.of_nat (length pre) >=? 0)%Z
          && (Z.of_nat (length pre + S (length mid)) >? Z.of_nat (length pre))%Z
          = true) as ->
    by (apply andb_true_iff; split; [apply Z.geb_le | apply Z.gtb_lt]; lia).
  destruct (loads (ch "[" :: _)) as [[]|]; reflexivity.
Qed.

(** C5, as the code has it. A text that parses to a JSON array yields that
    array; a text that parses to anything else yields the empty list, and no
    slice is tried. Only when parsing the whole text raises is the text from
    the first opening bracket through the first closing bracket after it
    parsed on its own: an array is accepted, anything else, or no such pair
    of brackets, yields the empty list. With CPython's decoder, an array of
    the strings A and B between a line "Here you go:" and a line
    "Hope that helps!" yields the array of A and B. *)
Theorem extract_areas_spec (s : pystr) :
  let areas l := Ret (jsonify (dict [(str "areas", PList l)])) in
  (forall l, loads s = Ret (PList l) -> extract_areas loads (PStr s) = areas l)
  /\ (forall v, loads s = Ret v -> is_list v = false ->
      extract_areas loads (PStr s) = areas [])
  /\ (forall e pre mid post,
      loads s = Raise e ->
      s = pre ++ ch "[" :: mid ++ ch "]" :: post ->
      ch "[" ∉ pre -> ch "]" ∉ mid ->
      extract_areas loads (PStr s)
      = match loads (ch "[" :: mid ++ [ch "]"]) with
        | Ret (PList l) => areas l
        | _ => areas []
        end)
  /\ (forall e, loads s = Raise e -> ch "[" ∉ s ->
      extract_areas loads (PStr s) = areas [])
  /\ (forall e pre mid,
      loads s = Raise e -> s = pre ++ ch "[" :: mid ->
      ch "[" ∉ pre -> ch "]" ∉ mid ->
      extract_areas loads (PStr s) = areas [])
  /\ extract_areas json_loads
       (PStr (lit "Here you go:\n['A', 'B']\nHope that helps!"))
     = areas [PStr (str "A"); PStr (str "B")].
Proof.
  intros areas.
  split; [|split; [|split; [|split; [|split]]]].
  - intros l H. unfold extract_areas. simpl. by rewrite H.
  - intros v H Hv. unfold extract_areas, no_areas. simpl. by rewrite H, Hv.
  - intros e pre mid post He Hs Ho Hc.
    by rewrite (extract_areas_sliced s e pre mid post).
  - intros e H Ho. unfold extract_areas, no_areas. simpl.
    by rewrite H, (find_absent s (ch "[") Ho).
  - intros e pre mid H Hs Ho Hc. unfold extract_areas, no_areas. simpl.
    rewrite H.
    assert (Hstart : find s (ch "[") 0 = Z.of_nat (length pre))
      by (rewrite Hs; by apply find_first).
    rewrite Hstart.
    assert (Hend : find s (ch "]") (Z.of_nat (length pre)) = (-1)%Z).
    { rewrite Hs. apply (find_after_absent (ch "]") pre (ch "[" :: mid)).
      apply not_elem_of_cons. split; [discriminate | done]. }
    rewrite Hend.
    assert ((Z.of_nat (length pre) >=? 0)%Z && (-1 >? Z.of_nat (length pre))%Z
            = false) as ->
      by (apply andb_false_iff; right; rewrite Z.gtb_ltb; apply Z.ltb_ge; lia).
    reflexivity.
  - vm_compute. reflexivity.
Qed.

(** A completion whose content is not a string has no [find]: the inner
    handler raises, and [get_areas] answers 500. *)
Lemma extract_areas_non_string (content : json) :
  (forall s, content <> PStr s) ->
  extract_areas loads content = Raise AttributeError.
Proof.
  intros H. destruct content; try reflexivity. by destruct (H s).
Qed.

End Extraction.

Lemma extract_areas_spec_witness :
  extract_areas json_loads (PStr (lit "Sure: ['X'] ok"))
  = Ret (jsonify (dict [(str "areas", PList [PStr (str "X")])])).
Proof.
  refine (proj1 (proj2 (proj2 (extract_areas_spec json_loads
                                 (lit "Sure: ['X'] ok"))))
            JSONDecodeError (str "Sure: ") (lit "'X'") (str " ok") _ _ _ _);
    try (vm_compute; reflexivity);
    apply (bool_decide_unpack _); vm_compute; exact I.
Defined.

(** Not every well-formed embedded array is recovered. Where the array
    holds an array, the slice ends at the first closing bracket, does not
    parse, and the array is lost. Where the whole text is JSON but not an
    array, the array inside it is never sliced out. *)
Lemma extract_areas_nested_refuted :
  let nested := [PList [PStr (str "A")]; PList [PStr (str "B")]] in
  json_loads (lit "[['A'], ['B']]") = Ret (PList nested)
  /\ extract_areas json_loads (PStr (lit "Areas: [['A'], ['B']]"))
     = Ret (jsonify (dict [(str "areas", PList [])]))
  /\ extract_areas json_loads (PStr (lit "Areas: [['A'], ['B']]"))
     <> Ret (jsonify (dict [(str "areas", PList nested)]))
  /\ extract_areas json_loads (PStr (lit "{'areas': ['A', 'B']}"))
     = Ret (jsonify (dict [(str "areas", PList [])])).
Proof.
  repeat split; try (vm_compute; reflexivity).
  vm_compute. intros H. discriminate H.
Qed.

Example extract_areas_unparsable :
  extract_areas json_loads (PStr (str "I cannot help with that."))
  = Ret (jsonify (dict [(str "areas", PList [])])).
Proof. vm_compute. reflexivity. Qed.

(** A string element that holds a closing bracket ends the slice early. *)
Example extract_areas_bracket_in_string :
  extract_areas json_loads (PStr (lit "Areas: ['C [advanced]', 'B']"))
  = Ret (jsonify (dict [(str "areas", PList [])])).
Proof. vm_compute. reflexivity. Qed.

(** ** Flat arrays of strings *)

Lemma plain_inv (c : N) :
  plain c = true ->
  (c =? DQUOTE) = false /\ (c =? ch "\") = false /\ (c <? 32) = false.
Proof.
  unfold plain. intros H.
  apply andb_true_iff in H as [H H3]. apply andb_true_iff in H as [H1 H2].
  apply negb_true_iff in H2, H3. repeat split; try done.
  apply N.ltb_ge. by apply N.leb_le.
Qed.

Lemma scanstring_plain (s rest acc : pystr) :
  forallb plain s = true ->
  scanstring (s ++ DQUOTE :: rest) acc = Scanned (rev acc ++ s) rest.
Proof.
  revert acc. induction s as [|c s IH]; intros acc Hs.
  - cbn [app scanstring]. rewrite N.eqb_refl. by rewrite app_nil_r.
  - cbn [forallb] in Hs. apply andb_true_iff in Hs as [Hc Hs].
    destruct (plain_inv c Hc) as (H1 & H2 & H3).
    cbn [app scanstring]. rewrite H1, H2, H3, IH by done.
    cbn [rev]. by rewrite <- app_assoc.
Qed.

Lemma scan_once_quoted (fuel : nat) (x rest : pystr) :
  forallb plain x = true -> (0 < fuel)%nat ->
  scan_once fuel (quoted x ++ rest) = Scanned (PStr x) rest.
Proof.
  intros Hx Hfuel. destruct fuel as [|fuel]; [lia|].
  unfold quoted. cbn [app scan_once]. rewrite N.eqb_refl.
  rewrite <- app_assoc. cbn [app]. by rewrite scanstring_plain.
Qed.

Lemma skip_ws_stays (c : N) (r : pystr) :
  is_ws c = false -> skip_ws (c :: r) = c :: r.
Proof. intros H. cbn [skip_ws]. by rewrite H. Qed.

Lemma skip_ws_items (l : list pystr) (rest : pystr) :
  l <> [] -> skip_ws (array_items l ++ rest) = array_items l ++ rest.
Proof.
  destruct l as [|x [|y l]]; [done|..]; intros _;
    cbn [array_items quoted app]; by apply skip_ws_stays.
Qed.

Lemma array_items_head (l : list pystr) (rest : pystr) :
  l <> [] -> exists r, array_items l ++ rest = DQUOTE :: r.
Proof.
  destruct l as [|x [|y l]]; [done|..]; intros _; cbn [array_items quoted app];
    eauto.
Qed.

Lemma parse_elems_items (l : list pystr) :
  forall fuel rest acc,
    l <> [] ->
    Forall (fun x => forallb plain x = true) l ->
    (length l < fuel)%nat ->
    parse_elems fuel (array_items l ++ ch "]" :: rest) acc
    = Scanned (PList (rev acc ++ map PStr l)) rest.
Proof.
  induction l as [|x l IH]; intros fuel rest acc Hne Hall Hfuel; [done|].
  apply Forall_cons in Hall as [Hx Hall].
  destruct fuel as [|fuel]; [lia|]. cbn [length] in Hfuel.
  cbn [parse_elems].
  destruct l as [|y l].
  - cbn [array_items]. rewrite scan_once_quoted by (done || lia).
    rewrite skip_ws_stays by done. by rewrite N.eqb_refl.
  - change (array_items (x :: y :: l))
      with (quoted x ++ str ", " ++ array_items (y :: l)).
    rewrite <- !app_assoc. rewrite scan_once_quoted by (done || lia).
    change (str ", " ++ array_items (y :: l) ++ ch "]" :: rest)
      with (ch "," :: ch " " :: (array_items (y :: l) ++ ch "]" :: rest)).
    rewrite skip_ws_stays by done.
    change (ch "," =? ch "]") with false. cbv iota. rewrite N.eqb_refl.
    change (skip_ws (ch " " :: array_items (y :: l) ++ ch "]" :: rest))
      with (skip_ws (array_items (y :: l) ++ ch "]" :: rest)).
    rewrite skip_ws_items by done.
    rewrite IH; [|done|done|cbn [length] in *; lia].
    cbn [rev map]. by rewrite <- app_assoc.
Qed.

Lemma array_items_length (l : list pystr) :
  (2 * length l <= length (array_items l))%nat.
Proof.
  induction l as [|x [|y l] IH]; [cbn; lia|..].
  - cbn [array_items quoted length]. rewrite length_app. cbn. lia.
  - change (array_items (x :: y :: l))
      with (quoted x ++ str ", " ++ array_items (y :: l)).
    rewrite !length_app. change (length (str ", ")) with 2%nat.
    unfold quoted. cbn [length] in *. lia.
Qed.

(** A flat array of plain strings decodes to those strings. *)
Lemma json_loads_array_text (l : list pystr) :
  Forall (fun x => forallb plain x = true) l ->
  json_loads (array_text l) = Ret (PList (map PStr l)).
Proof.
  intros Hall. unfold json_loads, array_text.
  change (after_prefix [65279] (ch "[" :: array_items l ++ [ch "]"]))
    with (@None pystr).
  rewrite skip_ws_stays by done.
  replace (2 * length (ch "[" :: array_items l ++ [ch "]"]) + 1)%nat
    with (S (2 * length (array_items l) + 4))
    by (cbn [length]; rewrite length_app; cbn [length]; lia).
  cbn [scan_once]. change (ch "[" =? DQUOTE) with false.
  change (ch "[" =? ch "{") with false. rewrite N.eqb_refl. cbv iota.
  destruct l as [|x l].
  - cbn [array_items app]. rewrite skip_ws_stays by done.
    by rewrite N.eqb_refl.
  - rewrite skip_ws_items by done.
    destruct (array_items_head (x :: l) [ch "]"]) as [r Hr]; [done|].
    rewrite Hr. change (DQUOTE =? ch "]") with false. cbv iota. rewrite <- Hr.
    rewrite (parse_elems_items (x :: l) _ [] []); [done|done|done|].
    pose proof (array_items_length (x :: l)). lia.
Qed.

Lemma array_items_no_close (l : list pystr) :
  Forall (fun x => ch "]" ∉ x) l -> ch "]" ∉ array_items l.
Proof.
  induction l as [|x [|y l] IH]; intros Hall.
  - apply not_elem_of_nil.
  - apply Forall_cons in Hall as [Hx _]. cbn [array_items]. unfold quoted.
    rewrite not_elem_of_cons, not_elem_of_app, not_elem_of_cons.
    repeat split; try done. apply not_elem_of_nil.
  - apply Forall_cons in Hall as [Hx Hall].
    change (array_items (x :: y :: l))
      with (quoted x ++ str ", " ++ array_items (y :: l)).
    rewrite !not_elem_of_app. unfold quoted.
    rewrite not_elem_of_cons, not_elem_of_app, not_elem_of_cons.
    repeat split; try done; try apply not_elem_of_nil.
    + apply (bool_decide_unpack _). vm_compute. exact I.
    + by apply IH.
Qed.

(** A flat array of plain strings inside a text that is not JSON as a whole
    is recovered, whatever stands before and after it, as long as no opening
    bracket stands before it and no element holds a closing bracket. *)
Lemma flat_array_recovered (pre post : pystr) (l : list pystr) (e : exn) :
  ch "[" ∉ pre ->
  Forall (fun x => forallb plain x = true) l ->
  Forall (fun x => ch "]" ∉ x) l ->
  json_loads (pre ++ array_text l ++ post) = Raise e ->
  extract_areas json_loads (PStr (pre ++ array_text l ++ post))
  = Ret (jsonify (dict [(str "areas", PList (map PStr l))])).
Proof.
  intros Hpre Hplain Hclose He.
  rewrite (extract_areas_sliced json_loads _ e pre (array_items l) post);
    [|done| |done|by apply array_items_no_close].
  - change (ch "[" :: array_items l ++ [ch "]"]) with (array_text l).
    by rewrite json_loads_array_text.
  - unfold array_text. simpl. by rewrite <- app_assoc.
Qed.

Example flat_array_recovered_example :
  extract_areas json_loads
    (PStr (lit "Sure! ['System Design', 'Behavioral'] Good luck."))
  = Ret (jsonify (dict [(str "areas",
                         PList [PStr (str "System Design");
                                PStr (str "Behavioral")])])).
Proof.
  apply (flat_array_recovered (str "Sure! ") (str " Good luck.")
           [str "System Design"; str "Behavioral"] JSONDecodeError);
    try (vm_compute; reflexivity);
    try (apply (bool_decide_unpack _); vm_compute; exact I);
    repeat constructor; apply (bool_decide_unpack _); vm_compute; exact I.
Qed.

(** ** The three handlers past their gates *)

Section Relay.

Variable loads : pystr -> res json.
Variable requests_post : nat -> post_call -> res reply.
Variable exn_str : exn -> pystr.

Local Arguments str : simpl never.
Local Arguments lit : simpl never.
Local Arguments dict : simpl never.
Local Arguments jsonify : simpl never.
Local Arguments falsy : simpl never.
Local Arguments extract_areas : simpl never.
Local Arguments extract_safety : simpl never.
Local Arguments completion_content : simpl never.
Local Arguments areas_prompt : simpl never.
Local Arguments safety_prompt : simpl never.
Local Arguments auth_headers : simpl never.

Ltac enter :=
  unfold get_areas, chat, check_area, bind, lift, ret, try_, post;
  repeat match goal with
         | H : verify_csrf _ = _ |- _ => rewrite H
         | H : falsy _ = _ |- _ => rewrite H
         | H : get_json _ = _ |- _ => rewrite H
         end;
  simpl.

(** [get_areas] with a non-blank [coach]: one call goes upstream, with the
    areas prompt, 300 tokens and temperature 0.0, and the answer is what
    [extract_areas] makes of the completion text. *)
Lemma get_areas_relays (cfg : config) (req : request) (w : world)
    (d : gmap pystr json) (coach : pystr) (c : N) (t : pystr)
    (r : reply) (content : json) :
  verify_csrf req = Ret true ->
  falsy (OPENAI_API_KEY cfg) = false ->
  get_json req = Ret (PDict d) ->
  d !! str "coach" = Some (PStr coach) ->
  strip coach = c :: t ->
  let call :=
    {| url := COMPLETIONS_URL;
       call_headers := auth_headers cfg;
       call_json :=
         dict [(str "model", PStr (OPENAI_MODEL cfg));
               (str "messages", areas_prompt (c :: t));
               (str "max_tokens", PInt 300);
               (str "temperature", PFloat (Dec false 0 (-1)))] |} in
  requests_post (length (sent w)) call = Ret r ->
  completion_content r = Ret content ->
  get_areas loads requests_post exn_str cfg req w
  = (match extract_areas loads content with
     | Ret resp => Ret resp
     | Raise e => Ret (internal_error exn_str e)
     end,
     {| sent := sent w ++ [call]; drawn := drawn w |}).
Proof.
  intros Hcsrf Hkey Hjson Hcoach Hstrip call Hpost Hcontent. enter.
  rewrite Hcoach. simpl. rewrite Hstrip. fold call. rewrite Hpost, Hcontent.
  by destruct (extract_areas loads content).
Qed.

(** [check_area] with a non-blank [area]: one call goes upstream, with the
    safety prompt, 60 tokens and temperature 0.0, and the answer is what
    [extract_safety] makes of the completion text. *)
Lemma check_area_relays (cfg : config) (req : request) (w : world)
    (d : gmap pystr json) (area : pystr) (c : N) (t : pystr)
    (r : reply) (content : json) :
  verify_csrf req = Ret true ->
  falsy (OPENAI_API_KEY cfg) = false ->
  get_json req = Ret (PDict d) ->
  d !! str "area" = Some (PStr area) ->
  strip area = c :: t ->
  let call :=
    {| url := COMPLETIONS_URL;
       call_headers := auth_headers cfg;
       call_json :=
         dict [(str "model", PStr (OPENAI_MODEL cfg));
               (str "messages", safety_prompt (c :: t));
               (str "max_tokens", PInt 60);
               (str "temperature", PFloat (Dec false 0 (-1)))] |} in
  requests_post (length (sent w)) call = Ret r ->
  completion_content r = Ret content ->
  check_area loads requests_post exn_str cfg req w
  = (Ret (extract_safety loads content),
     {| sent := sent w ++ [call]; drawn := drawn w |}).
Proof.
  intros Hcsrf Hkey Hjson Harea Hstrip call Hpost Hcontent. enter.
  rewrite Harea. simpl. rewrite Hstrip. fold call. by rewrite Hpost, Hcontent.
Qed.

(** C6, as the code has it. The completion text of [check_area] is
    answered with the negative default
    [{"safe": false, "reason": "Could not verify area safety"}] when it is
    not a string, does not parse, parses to something that is not an object,
    or parses to an object without a [safe] key. An object with a [safe] key is returned as
    it is, whatever the type of the value under [safe]. *)
Theorem check_area_verdict (cfg : config) (req : request) (w : world)
    (d : gmap pystr json) (area : pystr) (c : N) (t : pystr)
    (r : reply) (content : json) :
  verify_csrf req = Ret true ->
  falsy (OPENAI_API_KEY cfg) = false ->
  get_json req = Ret (PDict d) ->
  d !! str "area" = Some (PStr area) ->
  strip area = c :: t ->
  requests_post (length (sent w))
    {| url := COMPLETIONS_URL;
       call_headers := auth_headers cfg;
       call_json :=
         dict [(str "model", PStr (OPENAI_MODEL cfg));
               (str "messages", safety_prompt (c :: t));
               (str "max_tokens", PInt 60);
               (str "temperature", PFloat (Dec false 0 (-1)))] |} = Ret r ->
  completion_content r = Ret content ->
  let negative :=
    jsonify (dict [(str "safe", PBool false);
                   (str "reason", PStr (str "Could not verify area safety"))]) in
  fst (check_area loads requests_post exn_str cfg req w)
  = Ret match loads_value loads content with
        | Ret (PDict o) =>
          match o !! str "safe" with
          | Some _ => jsonify (PDict o)
          | None => negative
          end
        | _ => negative
        end.
Proof.
  intros Hcsrf Hkey Hjson Harea Hstrip Hpost Hcontent negative.
  erewrite check_area_relays by eauto. simpl. f_equal.
  unfold extract_safety, could_not_verify.
  destruct (loads_value loads content) as [[| | | | | |o]|]; try reflexivity.
  simpl. destruct (o !! str "safe"); reflexivity.
Qed.

(** C8. Past the gates, with a JSON object as body, [chat] sends exactly one
    call upstream. Its payload holds the body's [messages] as they are
    ([None] when the body has none), the body's [max_tokens] or 800, and the
    body's [temperature] or 0.2. When the upstream answers with a JSON body,
    the response is that body, whole and unread. *)
Theorem chat_relays (cfg : config) (req : request) (w : world)
    (d : gmap pystr json) :
  verify_csrf req = Ret true ->
  falsy (OPENAI_API_KEY cfg) = false ->
  get_json req = Ret (PDict d) ->
  let call :=
    {| url := COMPLETIONS_URL;
       call_headers := auth_headers cfg;
       call_json :=
         dict [(str "model", PStr (OPENAI_MODEL cfg));
               (str "messages", default PNone (d !! str "messages"));
               (str "max_tokens", default (PInt 800) (d !! str "max_tokens"));
               (str "temperature",
                default (PFloat (Dec false 2 (-1))) (d !! str "temperature"))] |} in
  snd (chat requests_post exn_str cfg req w)
  = {| sent := sent w ++ [call]; drawn := drawn w |}
  /\ (forall r j,
      requests_post (length (sent w)) call = Ret r ->
      reply_json r = Ret j ->
      fst (chat requests_post exn_str cfg req w) = Ret (jsonify j)).
Proof.
  intros Hcsrf Hkey Hjson call. split.
  - enter. fold call.
    destruct (requests_post (length (sent w)) call) as [r|e]; [|reflexivity].
    by destruct (reply_json r).
  - intros r j Hpost Hreply. enter. fold call. by rewrite Hpost, Hreply.
Qed.

(** Outside what C8 supposes: an upstream failure is answered 500 with the
    text of the exception, and a body that is not an object raises out of
    the view before anything is sent. *)
Lemma chat_upstream_error (cfg : config) (req : request) (w : world)
    (d : gmap pystr json) (e : exn) :
  verify_csrf req = Ret true ->
  falsy (OPENAI_API_KEY cfg) = false ->
  get_json req = Ret (PDict d) ->
  (forall n call, requests_post n call = Raise e) ->
  fst (chat requests_post exn_str cfg req w)
  = Ret (with_status (jsonify (dict [(str "error", PStr (exn_str e))])) 500).
Proof.
  intros Hcsrf Hkey Hjson Hpost. enter. by rewrite Hpost.
Qed.

Lemma chat_non_object_body (cfg : config) (req : request) (w : world)
    (data : json) :
  verify_csrf req = Ret true ->
  falsy (OPENAI_API_KEY cfg) = false ->
  get_json req = Ret data ->
  (forall d, data <> PDict d) ->
  chat requests_post exn_str cfg req w = (Raise AttributeError, w).
Proof.
  intros Hcsrf Hkey Hjson Hdata. enter.
  destruct data; try reflexivity. by destruct (Hdata d).
Qed.

End Relay.

Lemma check_area_verdict_witness :
  fst (check_area json_loads (upstream_says (lit "{'safe': true}")) exn_name
         with_key
         (request_with (str "tok") (Ret (dict [(str "area", PStr (str "nursing"))])))
         fresh)
  = Ret (jsonify (dict [(str "safe", PBool true)])).
Proof.
  refine (eq_trans
            (check_area_verdict json_loads (upstream_says (lit "{'safe': true}"))
               exn_name with_key
               (request_with (str "tok")
                  (Ret (dict [(str "area", PStr (str "nursing"))])))
               fresh (list_to_map [(str "area", PStr (str "nursing"))])
               (str "nursing") (ch "n") (str "ursing")
               {| reply_json := Ret (completion (PStr (lit "{'safe': true}"))) |}
               (PStr (lit "{'safe': true}")) _ _ _ _ _ _ _) _);
    vm_compute; reflexivity.
Defined.

(** A [safe] value of the wrong type is not a parse failure: the object
    [{"safe": "yes"}] is returned as it is, not the negative default. *)
Lemma check_area_mistyped_refuted :
  let answer :=
    fst (check_area json_loads (upstream_says (lit "{'safe': 'yes'}")) exn_name
           with_key
           (request_with (str "tok")
              (Ret (dict [(str "area", PStr (str "nursing"))])))
           fresh) in
  answer = Ret (jsonify (dict [(str "safe", PStr (str "yes"))]))
  /\ answer
     <> Ret (jsonify
               (dict [(str "safe", PBool false);
                      (str "reason", PStr (str "Could not verify area safety"))])).
Proof.
  split; [vm_compute; reflexivity|].
  vm_compute. intros H. discriminate H.
Qed.

Lemma chat_relays_witness :
  fst (chat (upstream_body (dict [(str "id", PStr (str "cmpl-1"))])) exn_name
         with_key
         (request_with (str "tok")
            (Ret (dict [(str "messages", PList []); (str "max_tokens", PInt 50)])))
         fresh)
  = Ret (jsonify (dict [(str "id", PStr (str "cmpl-1"))])).
Proof.
  refine (proj2
            (chat_relays (upstream_body (dict [(str "id", PStr (str "cmpl-1"))]))
               exn_name with_key
               (request_with (str "tok")
                  (Ret (dict [(str "messages", PList []);
                              (str "max_tokens", PInt 50)])))
               fresh
               (list_to_map [(str "messages", PList []);
                             (str "max_tokens", PInt 50)])
               _ _ _)
            {| reply_json := Ret (dict [(str "id", PStr (str "cmpl-1"))]) |}
            (dict [(str "id", PStr (str "cmpl-1"))]) _ _);
    vm_compute; reflexivity.
Defined.

(** The payload of that call: the supplied token budget, the default
    temperature. *)
Example chat_payload :
  call_json <$>
    sent (snd (chat (upstream_body PNone) exn_name with_key
                 (request_with (str "tok")
                    (Ret (dict [(str "messages", PList []);
                                (str "max_tokens", PInt 50)])))
                 fresh))
  = [dict [(str "model", PStr (str "gpt-3.5-turbo"));
           (str "messages", PList []);
           (str "max_tokens", PInt 50);
           (str "temperature", PFloat (Dec false 2 (-1)))]].
Proof. vm_compute. reflexivity. Qed.

(** ** The minted token *)

Lemma b64char_in (n : N) : In (b64char n) B64URL.
Proof.
  unfold b64char. apply nth_In.
  change 63 with (N.ones 6). rewrite N.land_ones.
  change (length B64URL) with 64%nat.
  pose proof (N.mod_upper_bound n (2 ^ 6)). lia.
Qed.

Lemma b64url_chars (c : N) : In c B64URL -> (c <? 128) = true /\ (c =? ch "=") = false.
Proof.
  assert (H : forallb (fun c => (c <? 128) && negb (c =? ch "=")) B64URL = true)
    by (vm_compute; reflexivity).
  rewrite forallb_forall in H. intros Hc. specialize (H c Hc).
  apply andb_true_iff in H as [H1 H2]. by apply negb_true_iff in H2.
Qed.

Lemma b64char_not_pad (n : N) : (b64char n =? ch "=") = false.
Proof. apply b64url_chars, b64char_in. Qed.

(** Thirty-two bytes encode to forty-three characters of the URL-safe
    alphabet once the one padding character is stripped. *)
Lemma token_of_32_bytes (bs : list N) :
  length bs = 32%nat ->
  let tok := rstrip_char (ch "=") (urlsafe_b64encode bs) in
  length tok = 43%nat /\ Forall (fun c => In c B64URL) tok.
Proof.
  intros Hlen.
  do 32 (destruct bs as [|? bs]; [simpl in Hlen; lia|]).
  destruct bs; [|simpl in Hlen; lia].
  cbn [urlsafe_b64encode]. unfold rstrip_char. cbn [rev app lstrip_char].
  rewrite N.eqb_refl, b64char_not_pad. cbn [rev app].
  split; [reflexivity|].
  repeat (apply Forall_cons_2; [apply b64char_in|]). apply Forall_nil_2.
Qed.

Section Csrf.

Variable urandom : nat -> Byte.byte.

Lemma new_csrf_token_spec (w : world) :
  exists tok,
    _new_csrf_token urandom w
    = (Ret tok, {| sent := sent w; drawn := (drawn w + 32)%nat |})
    /\ length tok = 43%nat
    /\ Forall (fun c => In c B64URL) tok.
Proof.
  unfold _new_csrf_token, token_urlsafe, bind, token_bytes, ret.
  eexists. split; [reflexivity|].
  apply token_of_32_bytes. by rewrite length_map, length_seq.
Qed.

Lemma new_csrf_token_truthy (w : world) :
  exists c t w', _new_csrf_token urandom w = (Ret (c :: t), w').
Proof.
  destruct (new_csrf_token_spec w) as (tok & -> & Hlen & _).
  destruct tok; [discriminate|]. eauto.
Qed.

Lemma isascii_b64url (tok : pystr) :
  Forall (fun c => In c B64URL) tok -> isascii tok = true.
Proof.
  intros H. unfold isascii. apply forallb_forall. intros c Hc.
  rewrite Forall_forall in H. apply b64url_chars, H. by apply list_elem_of_In.
Qed.

(** The cookie [ensure_csrf_cookie] sets, for a token. *)
Local Abbreviation csrf_cookie cfg tok :=
  {| key := str "csrf-token"; value := tok;
     max_age := Some 604800%Z; path := Some (str "/");
     secure := CSRF_COOKIE_SECURE cfg; httponly := false;
     samesite := Some (str "Lax") |}.

(** Whatever token it is called with, [ensure_csrf_cookie] adds one cookie
    to the response and changes nothing else: the token argument when it is
    given and not empty, else the inbound cookie token when there is one,
    else a newly minted token. *)
Lemma ensure_csrf_cookie_sets (cfg : config) (req : request)
    (resp : response) (token : option pystr) (w : world) :
  exists tok w',
    ensure_csrf_cookie urandom cfg req resp token w
    = (Ret {| status := status resp; body := body resp;
              set_cookies := set_cookies resp ++ [csrf_cookie cfg tok] |}, w')
    /\ tok <> []
    /\ (or_ token (cookies req !! CSRF_COOKIE_NAME) = Some tok /\ w' = w
        \/ falsy (or_ token (cookies req !! CSRF_COOKIE_NAME)) = true
           /\ _new_csrf_token urandom w = (Ret tok, w')).
Proof.
  unfold ensure_csrf_cookie, bind, ret.
  destruct (or_ token (cookies req !! CSRF_COOKIE_NAME)) as [[|c t]|] eqn:Hor;
    try (destruct (new_csrf_token_truthy w) as (c & t & w' & Hnew);
         exists (c :: t), w'; rewrite Hnew; repeat split; [done | by right]).
  exists (c :: t), w. repeat split; [done | by left].
Qed.

(** C9. Every call of [ensure_csrf_cookie] adds to the response one cookie
    named [csrf-token] with max-age 604800, SameSite=Lax, HttpOnly false and
    the configured Secure flag, and leaves status, body and earlier cookies
    as they were. Called without a token, it sets the cookie to the inbound
    request's cookie token when there is one (present and not empty),
    drawing no entropy, and to a newly minted token otherwise; the minted
    token is never empty. [GET /api/csrf] does the same on a response whose
    body is the token. The Secure flag is true exactly when the environment
    sets [CSRF_COOKIE_SECURE] to a spelling of "true", so false by default.
    A request that sends back the cookie it was given is given the same
    cookie again, and nothing is minted. *)
Theorem ensure_csrf_cookie_spec (cfg : config) (req : request)
    (resp : response) (w : world) :
  let inbound := cookies req !! CSRF_COOKIE_NAME in
  let set r tok :=
    {| status := status r; body := body r;
       set_cookies := set_cookies r ++ [csrf_cookie cfg tok] |} in
  (forall token, exists tok w',
     ensure_csrf_cookie urandom cfg req resp token w = (Ret (set resp tok), w'))
  /\ (forall t, inbound = Some t -> t <> [] ->
      ensure_csrf_cookie urandom cfg req resp None w = (Ret (set resp t), w)
      /\ csrf_token urandom cfg req w
         = (Ret (set (jsonify (dict [(str "token", PStr t)])) t), w))
  /\ (falsy inbound = true ->
      exists tok w',
        _new_csrf_token urandom w = (Ret tok, w')
        /\ tok <> []
        /\ ensure_csrf_cookie urandom cfg req resp None w = (Ret (set resp tok), w')
        /\ csrf_token urandom cfg req w
           = (Ret (set (jsonify (dict [(str "token", PStr tok)])) tok), w'))
  /\ (forall environ,
      (CSRF_COOKIE_SECURE (load_config environ) = true <->
       exists v, environ !! str "CSRF_COOKIE_SECURE" = Some v
                 /\ lower v = str "true")
      /\ (environ !! str "CSRF_COOKIE_SECURE" = None ->
          CSRF_COOKIE_SECURE (load_config environ) = false))
  /\ (forall r1 w1 ck req2 resp2,
      ensure_csrf_cookie urandom cfg req resp None w = (Ret r1, w1) ->
      last (set_cookies r1) = Some ck ->
      cookies req2 !! CSRF_COOKIE_NAME = Some (value ck) ->
      exists r2,
        ensure_csrf_cookie urandom cfg req2 resp2 None w1 = (Ret r2, w1)
        /\ last (set_cookies r2) = Some ck).
Proof.
  intros inbound set.
  assert (Hreuse : forall rq rs t w0,
    cookies rq !! CSRF_COOKIE_NAME = Some t -> t <> [] ->
    ensure_csrf_cookie urandom cfg rq rs None w0 = (Ret (set rs t), w0)).
  { intros rq rs t w0 Ht Hne.
    destruct (ensure_csrf_cookie_sets cfg rq rs None w0)
      as (tok & w' & -> & _ & [[Hor ->] | [Hor _]]);
      unfold or_ in Hor; simpl in Hor; rewrite Ht in Hor.
    - by injection Hor as <-.
    - by destruct t. }
  assert (Hgiven : forall rq rs t w0, t <> [] ->
    ensure_csrf_cookie urandom cfg rq rs (Some t) w0 = (Ret (set rs t), w0)).
  { intros rq rs t w0 Hne. unfold ensure_csrf_cookie, or_, bind, ret.
    by destruct t. }
  assert (Hmint : falsy inbound = true ->
    exists tok w',
      _new_csrf_token urandom w = (Ret tok, w') /\ tok <> []
      /\ ensure_csrf_cookie urandom cfg req resp None w = (Ret (set resp tok), w')
      /\ csrf_token urandom cfg req w
         = (Ret (set (jsonify (dict [(str "token", PStr tok)])) tok), w')).
  { intros Hin. destruct (new_csrf_token_truthy w) as (c & t & w' & Hnew).
    exists (c :: t), w'. split; [done|]. split; [done|].
    unfold ensure_csrf_cookie, csrf_token, or_, bind, ret. simpl.
    fold inbound. destruct inbound as [[|c0 t0]|]; try discriminate Hin;
      rewrite Hnew; split; try reflexivity;
      by rewrite (Hgiven req _ (c :: t) w'). }
  split; [|split; [|split; [exact Hmint|split]]].
  - intros token.
    destruct (ensure_csrf_cookie_sets cfg req resp token w)
      as (tok & w' & H & _). eauto.
  - intros t Ht Hne. split; [by apply Hreuse|].
    unfold csrf_token, bind, ret. fold inbound. rewrite Ht.
    destruct t as [|c t]; [done|]. by rewrite Hgiven.
  - intros environ. unfold load_config, getenv. simpl.
    rewrite bool_decide_eq_true.
    destruct (environ !! str "CSRF_COOKIE_SECURE") as [v|]; simpl.
    + split; [|discriminate]. split; [eauto | by intros (v' & [= <-] & ?)].
    + split; [|done].
      split; [discriminate | by intros (v' & ? & _)].
  - intros r1 w1 ck req2 resp2 Hens Hlast Hck.
    destruct (ensure_csrf_cookie_sets cfg req resp None w)
      as (tok & w' & Hens' & Hne & _).
    rewrite Hens' in Hens. injection Hens as <- <-.
    simpl in Hlast. rewrite last_snoc in Hlast. injection Hlast as <-.
    eexists. split; [by apply Hreuse|].
    simpl. by rewrite last_snoc.
Qed.

End Csrf.

Lemma ensure_csrf_cookie_spec_witness :
  ensure_csrf_cookie counting_entropy with_key
    (request_with (str "k3Zq-9_a") (Ret PNone)) (jsonify PNone) None fresh
  = (Ret {| status := 200; body := JsonBody PNone;
            set_cookies :=
              [{| key := str "csrf-token"; value := str "k3Zq-9_a";
                  max_age := Some 604800%Z; path := Some (str "/");
                  secure := false; httponly := false;
                  samesite := Some (str "Lax") |}] |}, fresh).
Proof.
  refine (proj1 (proj1 (proj2 (ensure_csrf_cookie_spec counting_entropy
                                 with_key
                                 (request_with (str "k3Zq-9_a") (Ret PNone))
                                 (jsonify PNone) fresh))
                   (str "k3Zq-9_a") _ _));
    [vm_compute; reflexivity | discriminate].
Defined.

(** A first visit: the token minted from the bytes 0, 1, 2, ... *)
Example csrf_token_first_visit :
  csrf_token counting_entropy with_key (bare_request (Ret PNone)) fresh
  = (Ret {| status := 200;
            body := JsonBody
              (dict [(str "token",
                      PStr (str "AAECAwQFBgcICQoLDA0ODxAREhMUFRYXGBkaGxwdHh8"))]);
            set_cookies :=
              [{| key := str "csrf-token";
                  value := str "AAECAwQFBgcICQoLDA0ODxAREhMUFRYXGBkaGxwdHh8";
                  max_age := Some 604800%Z; path := Some (str "/");
                  secure := false; httponly := false;
                  samesite := Some (str "Lax") |}] |},
     {| sent := []; drawn := 32 |}).
Proof. vm_compute. reflexivity. Qed.

(** A minted token, sent back as cookie and header, passes verification. *)
Lemma minted_token_verifies (urandom : nat -> Byte.byte) (w w' : world)
    (tok : pystr) (parsed : res json) :
  _new_csrf_token urandom w = (Ret tok, w') ->
  verify_csrf (request_with tok parsed) = Ret true.
Proof.
  intros Hnew. destruct (new_csrf_token_spec urandom w) as (tok' & H & Hlen & Hall).
  rewrite H in Hnew. injection Hnew as <- _.
  apply verify_csrf_true_iff.
  unfold request_with, headers_get. simpl.
  change (lower (str "X-CSRF-Token")) with (str "x-csrf-token").
  rewrite !lookup_singleton_eq.
  destruct tok' as [|c t]; [discriminate Hlen|].
  repeat split. apply compare_digest_true_iff.
  eexists. repeat split. by apply isascii_b64url.
Qed.

(** ** The endpoints on stubbed upstreams *)

Example get_areas_stubbed :
  fst (get_areas json_loads
         (upstream_says (lit "['System Design', 'Behavioral', 'Algorithms']"))
         exn_name with_key
         (request_with (str "tok")
            (Ret (dict [(str "coach", PStr (str "Software Engineer"))])))
         fresh)
  = Ret (jsonify (dict [(str "areas",
                         PList [PStr (str "System Design");
                                PStr (str "Behavioral");
                                PStr (str "Algorithms")])])).
Proof. vm_compute. reflexivity. Qed.

Example get_areas_wrapped :
  fst (get_areas json_loads
         (upstream_says (lit "Here you go:\n['A', 'B']\nHope that helps!"))
         exn_name with_key
         (request_with (str "tok") (Ret (dict [(str "coach", PStr (str "nurse"))])))
         fresh)
  = Ret (jsonify (dict [(str "areas", PList [PStr (str "A"); PStr (str "B")])])).
Proof. vm_compute. reflexivity. Qed.

Example get_areas_nested :
  fst (get_areas json_loads (upstream_says (lit "Areas: [['A'], ['B']]"))
         exn_name with_key
         (request_with (str "tok") (Ret (dict [(str "coach", PStr (str "nurse"))])))
         fresh)
  = Ret (jsonify (dict [(str "areas", PList [])])).
Proof. vm_compute. reflexivity. Qed.

Example check_area_stubbed :
  fst (check_area json_loads (upstream_says (lit "{'safe': true}")) exn_name
         with_key
         (request_with (str "tok") (Ret (dict [(str "area", PStr (str "nursing"))])))
         fresh)
  = Ret (jsonify (dict [(str "safe", PBool true)])).
Proof. vm_compute. reflexivity. Qed.

Example check_area_unparsable :
  fst (check_area json_loads (upstream_says (str "I cannot help with that."))
         exn_name with_key
         (request_with (str "tok") (Ret (dict [(str "area", PStr (str "nursing"))])))
         fresh)
  = Ret (jsonify (dict [(str "safe", PBool false);
                        (str "reason", PStr (str "Could not verify area safety"))])).
Proof. vm_compute. reflexivity. Qed.

(** With the API key missing and no CSRF token, the CSRF check answers
    first. *)
Example missing_key_without_csrf :
  get_areas json_loads (upstream_says []) exn_name without_key
    (bare_request (Ret (dict [(str "coach", PStr (str "nurse"))]))) fresh
  = (Ret (with_status
            (jsonify (dict [(str "error", PStr (str "CSRF token missing or invalid"))]))
            403), fresh).
Proof. vm_compute. reflexivity. Qed.

(** * Further properties *)

(** ** The life of a CSRF token *)

Section TokenLife.

Variable urandom : nat -> Byte.byte.

Local Abbreviation token_cookie cfg tok :=
  {| key := str "csrf-token"; value := tok;
     max_age := Some 604800%Z; path := Some (str "/");
     secure := CSRF_COOKIE_SECURE cfg; httponly := false;
     samesite := Some (str "Lax") |}.

(** Called without a token, [ensure_csrf_cookie] hands out either the
    inbound cookie token or a freshly minted one. *)
Lemma ensure_hands_out (cfg : config) (req : request) (resp : response)
    (w : world) (r : response) (w' : world) :
  ensure_csrf_cookie urandom cfg req resp None w = (Ret r, w') ->
  exists tok,
    r = {| status := status resp; body := body resp;
           set_cookies := set_cookies resp ++ [token_cookie cfg tok] |}
    /\ tok <> []
    /\ (cookies req !! CSRF_COOKIE_NAME = Some tok /\ w' = w
        \/ falsy (cookies req !! CSRF_COOKIE_NAME) = true
           /\ _new_csrf_token urandom w = (Ret tok, w')
           /\ isascii tok = true).
Proof.
  intros H.
  destruct (ensure_csrf_cookie_sets urandom cfg req resp None w)
    as (tok & w0 & Hens & Hne & Hfrom).
  rewrite Hens in H. injection H as <- <-.
  exists tok. split; [done|]. split; [done|].
  destruct Hfrom as [[Hor ->] | [Hor Hnew]]; [by left|right].
  repeat split; try done.
  destruct (new_csrf_token_spec urandom w) as (tok' & Hspec & _ & Hall).
  rewrite Hspec in Hnew. injection Hnew as <- _. by apply isascii_b64url.
Qed.

(** A non-empty ASCII token sent both as cookie and as header verifies. *)
Lemma echoed_token_verifies (req : request) (tok : pystr) :
  tok <> [] -> isascii tok = true ->
  cookies req !! CSRF_COOKIE_NAME = Some tok ->
  headers_get req (str "X-CSRF-Token") = Some tok ->
  verify_csrf req = Ret true.
Proof.
  intros Hne Hascii Hc Hh. apply verify_csrf_true_iff. rewrite Hc, Hh.
  destruct tok as [|c t]; [done|]. repeat split.
  apply compare_digest_true_iff. eauto.
Qed.

(** X1. Every minted token is 43 characters of the URL-safe base64
    alphabet, so neither empty nor outside ASCII, and minting it draws
    exactly 32 bytes of entropy and sends nothing upstream. *)
Theorem minted_token_shape (w : world) :
  exists tok,
    _new_csrf_token urandom w
    = (Ret tok, {| sent := sent w; drawn := (drawn w + 32)%nat |})
    /\ length tok = 43%nat
    /\ Forall (fun c => In c B64URL) tok
    /\ isascii tok = true
    /\ tok <> [].
Proof.
  destruct (new_csrf_token_spec urandom w) as (tok & Hnew & Hlen & Hall).
  exists tok. repeat split; try done.
  - by apply isascii_b64url.
  - intros ->. discriminate Hlen.
Qed.

(** X3. [GET /api/csrf] answers with a JSON body whose token is the very
    value of the cookie it sets, never empty. Unless that value is an
    inbound cookie with a non-ASCII code point, a later request that sends
    it back as cookie and as X-CSRF-Token header passes [verify_csrf]. *)
Theorem issued_token_round_trip (cfg : config) (req : request) (w : world)
    (r : response) (w' : world) :
  csrf_token urandom cfg req w = (Ret r, w') ->
  exists tok,
    r = {| status := 200;
           body := JsonBody (dict [(str "token", PStr tok)]);
           set_cookies := [token_cookie cfg tok] |}
    /\ tok <> []
    /\ (cookies req !! CSRF_COOKIE_NAME = Some tok \/
        falsy (cookies req !! CSRF_COOKIE_NAME) = true)
    /\ (falsy (cookies req !! CSRF_COOKIE_NAME) = true \/ isascii tok = true ->
        forall req2,
          cookies req2 !! CSRF_COOKIE_NAME = Some tok ->
          headers_get req2 (str "X-CSRF-Token") = Some tok ->
          verify_csrf req2 = Ret true).
Proof.
  unfold csrf_token, bind, ret.
  destruct (cookies req !! CSRF_COOKIE_NAME) as [[|c t]|] eqn:Hin.
  1, 3: destruct (new_csrf_token_spec urandom w) as (tok & Hnew & Hlen & Hall);
    rewrite Hnew; destruct tok as [|c t]; [discriminate Hlen|];
    unfold ensure_csrf_cookie, or_, bind, ret; simpl;
    intros [= <- <-]; exists (c :: t);
    (split; [reflexivity|]); (split; [done|]); (split; [by right|]);
    intros _ req2 Hc Hh;
    apply (echoed_token_verifies req2 (c :: t)); try done;
    by apply isascii_b64url.
  unfold ensure_csrf_cookie, or_, bind, ret; simpl.
  intros [= <- <-]. exists (c :: t).
  split; [reflexivity|]. split; [done|]. split; [by left|].
  intros [Hf | Hascii] req2 Hc Hh; [discriminate Hf|].
  by apply (echoed_token_verifies req2 (c :: t)).
Qed.

(** X5. A client whose cookie token holds a non-ASCII code point never
    passes [verify_csrf], whatever header it sends, and is never given
    another token: [ensure_csrf_cookie] and [GET /api/csrf] set the same
    value again and mint nothing. *)
Theorem non_ascii_cookie_is_kept (cfg : config) (req : request)
    (resp : response) (w : world) (t : pystr) :
  cookies req !! CSRF_COOKIE_NAME = Some t ->
  isascii t = false ->
  verify_csrf req = Ret false
  /\ ensure_csrf_cookie urandom cfg req resp None w
     = (Ret {| status := status resp; body := body resp;
               set_cookies := set_cookies resp ++ [token_cookie cfg t] |}, w)
  /\ csrf_token urandom cfg req w
     = (Ret {| status := 200;
               body := JsonBody (dict [(str "token", PStr t)]);
               set_cookies := [token_cookie cfg t] |}, w).
Proof.
  intros Hc Hascii.
  assert (Hne : exists c r, t = c :: r)
    by (destruct t as [|c r]; [discriminate Hascii | eauto]).
  destruct Hne as (c & r & ->).
  split; [|split].
  - unfold verify_csrf. rewrite Hc.
    destruct (headers_get req _) as [[|hc ht]|]; try reflexivity.
    change (falsy (Some (c :: r)) || falsy (Some (hc :: ht))) with false.
    cbv iota. unfold compare_digest. by rewrite Hascii.
  - unfold ensure_csrf_cookie, or_, bind, ret. simpl. by rewrite Hc.
  - unfold csrf_token, ensure_csrf_cookie, or_, bind, ret. by rewrite Hc.
Qed.

End TokenLife.

Lemma issued_token_round_trip_witness :
  exists tok,
    tok <> []
    /\ verify_csrf (request_with tok (Ret PNone)) = Ret true.
Proof.
  destruct (issued_token_round_trip counting_entropy with_key
              (bare_request (Ret PNone)) fresh _ _ eq_refl)
    as (tok & _ & Hne & _ & Hok).
  exists tok. split; [exact Hne|].
  apply Hok.
  - left. reflexivity.
  - unfold request_with. simpl. apply lookup_singleton_eq.
  - unfold request_with, headers_get. simpl. apply lookup_singleton_eq.
Defined.

Lemma non_ascii_cookie_is_kept_witness :
  verify_csrf (request_with [233] (Ret PNone)) = Ret false.
Proof.
  refine (proj1 (non_ascii_cookie_is_kept counting_entropy with_key
                   (request_with [233] (Ret PNone)) (jsonify PNone) fresh
                   [233] _ _));
    vm_compute; reflexivity.
Defined.

(** ** Tokens lose no entropy *)

Lemma land_small (x y k : N) : y < 2 ^ k -> N.land (N.shiftl x k) y = 0.
Proof.
  intros Hy. apply N.bits_inj. intros n. rewrite N.land_spec, N.bits_0.
  destruct (N.lt_ge_cases n k) as [Hn | Hn].
  - by rewrite N.shiftl_spec_low.
  - replace y with (y mod 2 ^ k) by (by apply N.mod_small).
    rewrite N.mod_pow2_bits_high by done. apply andb_false_r.
Qed.

Lemma lor_shiftl_small (x y k : N) :
  y < 2 ^ k -> N.lor (N.shiftl x k) y = x * 2 ^ k + y.
Proof.
  intros Hy. pose proof (land_small x y k Hy) as H.
  rewrite <- N.lxor_lor, <- N.add_nocarry_lxor by done.
  by rewrite N.shiftl_mul_pow2.
Qed.

Lemma pack3 (a b c : N) :
  b < 256 -> c < 256 ->
  N.lor (N.shiftl a 16) (N.lor (N.shiftl b 8) c) = a * 65536 + b * 256 + c.
Proof.
  intros Hb Hc.
  rewrite (lor_shiftl_small b c 8) by done.
  rewrite (lor_shiftl_small a _ 16) by (change (2 ^ 16) with 65536; change (2 ^ 8) with 256; lia).
  change (2 ^ 16) with 65536. change (2 ^ 8) with 256. lia.
Qed.

Lemma sextet (w k : N) : N.land (N.shiftr w k) 63 = (w / 2 ^ k) mod 64.
Proof.
  change 63 with (N.ones 6). by rewrite N.land_ones, N.shiftr_div_pow2.
Qed.

Lemma b64url_nodup : NoDup B64URL.
Proof. apply (bool_decide_unpack _). vm_compute. exact I. Qed.

Lemma b64char_eq (m n : N) :
  b64char m = b64char n -> N.land m 63 = N.land n 63.
Proof.
  unfold b64char. intros H.
  assert (Hb : forall x, (N.to_nat (N.land x 63) < length B64URL)%nat).
  { intros x. change 63 with (N.ones 6). rewrite N.land_ones.
    change (length B64URL) with 64%nat.
    pose proof (N.mod_upper_bound x (2 ^ 6)). lia. }
  apply N2Nat.inj.
  apply (proj1 (List.NoDup_nth B64URL 0) (proj1 (NoDup_ListNoDup _) b64url_nodup) _ _ (Hb m) (Hb n) H).
Qed.

Lemma radix64_step (a b : N) :
  a / 64 = b / 64 -> a mod 64 = b mod 64 -> a = b.
Proof.
  intros Hq Hr. rewrite (N.div_mod' a 64), (N.div_mod' b 64). congruence.
Qed.

(** The two leading characters of a group fix the top twelve bits of its
    24-bit word, the third the next six, the fourth the rest. *)
Lemma sextets_top (w w' : N) :
  w < 16777216 -> w' < 16777216 ->
  b64char (N.shiftr w 18) = b64char (N.shiftr w' 18) ->
  b64char (N.shiftr w 12) = b64char (N.shiftr w' 12) ->
  w / 4096 = w' / 4096.
Proof.
  intros Hw Hw' H3%b64char_eq H2%b64char_eq. revert H3 H2. rewrite !sextet.
  change (2 ^ 18) with (4096 * 64). change (2 ^ 12) with 4096.
  rewrite <- !N.Div0.div_div. intros H3 H2.
  apply radix64_step; [|done]. apply radix64_step; [|done].
  rewrite !N.Div0.div_div. by rewrite !N.div_small.
Qed.

Lemma sextets_mid (w w' : N) :
  w / 4096 = w' / 4096 ->
  b64char (N.shiftr w 6) = b64char (N.shiftr w' 6) ->
  w / 64 = w' / 64.
Proof.
  intros Hq H1%b64char_eq. revert H1. rewrite !sextet.
  change (2 ^ 6) with 64. intros H1.
  apply radix64_step; [|done]. by rewrite !N.Div0.div_div.
Qed.

Lemma sextets_low (w w' : N) :
  w / 64 = w' / 64 -> b64char w = b64char w' -> w = w'.
Proof.
  intros Hq H0%b64char_eq. revert H0.
  change 63 with (N.ones 6). rewrite !N.land_ones. by apply radix64_step.
Qed.

Lemma pack1 (a : N) : N.shiftl a 16 = a * 16 * 4096.
Proof. rewrite N.shiftl_mul_pow2. change (2 ^ 16) with 65536. lia. Qed.

Lemma pack2 (a b : N) :
  b < 256 -> N.lor (N.shiftl a 16) (N.shiftl b 8) = (a * 1024 + b * 4) * 64.
Proof.
  intros Hb. rewrite (N.shiftl_mul_pow2 b).
  rewrite lor_shiftl_small; change (2 ^ 16) with 65536; change (2 ^ 8) with 256; lia.
Qed.

Lemma list_ind3 {A : Type} (P : list A -> Prop) :
  P [] -> (forall a, P [a]) -> (forall a b, P [a; b]) ->
  (forall a b c r, P r -> P (a :: b :: c :: r)) ->
  forall l, P l.
Proof.
  intros H0 H1 H2 H3. fix IH 1.
  intros [|a [|b [|c r]]]; [done..|]. apply H3, IH.
Qed.

(** [base64.urlsafe_b64encode] loses nothing: byte strings of one length
    with one encoding are one byte string. *)
Lemma urlsafe_b64encode_inj (bs bs' : list N) :
  Forall (fun b => b < 256) bs -> Forall (fun b => b < 256) bs' ->
  length bs = length bs' ->
  urlsafe_b64encode bs = urlsafe_b64encode bs' -> bs = bs'.
Proof.
  revert bs'. induction bs as [|a|a b|a b c r IH] using list_ind3;
    intros [|a' [|b' [|c' r']]] Hbs Hbs' Hlen; try discriminate Hlen.
  - done.
  - inversion Hbs as [|? ? Ha _]; inversion Hbs' as [|? ? Ha' _]; subst.
    cbn [urlsafe_b64encode]. intros [= H3 H2].
    pose proof (fun Hw Hw' => sextets_top _ _ Hw Hw' H3 H2) as Hq.
    rewrite !pack1, !N.div_mul in Hq by done. f_equal. lia.
  - inversion Hbs as [|? ? Ha Hbs1]; inversion Hbs1 as [|? ? Hb _]; subst.
    inversion Hbs' as [|? ? Ha' Hbs1']; inversion Hbs1' as [|? ? Hb' _]; subst.
    cbn [urlsafe_b64encode]. intros [= H3 H2 H1].
    pose proof (fun Hw Hw' =>
                  sextets_mid _ _ (sextets_top _ _ Hw Hw' H3 H2) H1) as Hq.
    rewrite !pack2, !N.div_mul in Hq by done.
    assert (a = a' /\ b = b') as [-> ->] by lia. done.
  - inversion Hbs as [|? ? Ha Hbs1]; inversion Hbs1 as [|? ? Hb Hbs2];
      inversion Hbs2 as [|? ? Hc Hr]; subst.
    inversion Hbs' as [|? ? Ha' Hbs1']; inversion Hbs1' as [|? ? Hb' Hbs2'];
      inversion Hbs2' as [|? ? Hc' Hr']; subst.
    cbn [urlsafe_b64encode]. intros [= H3 H2 H1 H0 Hrest].
    pose proof (fun Hw Hw' =>
                  sextets_low _ _
                    (sextets_mid _ _ (sextets_top _ _ Hw Hw' H3 H2) H1) H0)
      as Hq.
    rewrite !pack3 in Hq by done.
    assert (a = a' /\ b = b' /\ c = c') as (-> & -> & ->) by lia.
    do 3 f_equal. apply IH; try done. simpl in Hlen. lia.
Qed.

(** Stripping the padding of the encoding of thirty-two bytes removes one
    character, so the stripped texts are equal only if the encodings are. *)
Lemma token_padding (bs : list N) :
  length bs = 32%nat ->
  urlsafe_b64encode bs
  = rstrip_char (ch "=") (urlsafe_b64encode bs) ++ [ch "="].
Proof.
  intros Hlen.
  do 32 (destruct bs as [|? bs]; [simpl in Hlen; lia|]).
  destruct bs; [|simpl in Hlen; lia].
  cbn [urlsafe_b64encode]. unfold rstrip_char. cbn [rev app lstrip_char].
  rewrite N.eqb_refl, b64char_not_pad. reflexivity.
Qed.

Section Entropy.

Variable urandom : nat -> Byte.byte.

Lemma new_csrf_token_bytes (w : world) :
  _new_csrf_token urandom w
  = (Ret (rstrip_char (ch "=")
            (urlsafe_b64encode
               (map (fun i => Byte.to_N (urandom (drawn w + i)%nat))
                  (seq 0 32)))),
     {| sent := sent w; drawn := (drawn w + 32)%nat |}).
Proof. reflexivity. Qed.

(** X2. Minting loses no entropy: two tokens minted at any two points of
    the entropy stream are equal exactly when the thirty-two bytes drawn
    for them are. *)
Theorem equal_tokens_equal_entropy (w1 w2 : world) (t1 t2 : pystr)
    (w1' w2' : world) :
  _new_csrf_token urandom w1 = (Ret t1, w1') ->
  _new_csrf_token urandom w2 = (Ret t2, w2') ->
  t1 = t2 <->
  forall i, (i < 32)%nat ->
    urandom (drawn w1 + i)%nat = urandom (drawn w2 + i)%nat.
Proof.
  rewrite !new_csrf_token_bytes.
  set (f1 := fun i => Byte.to_N (urandom (drawn w1 + i)%nat)).
  set (f2 := fun i => Byte.to_N (urandom (drawn w2 + i)%nat)).
  remember (map f1 (seq 0 32)) as bs1 eqn:Hbs1.
  remember (map f2 (seq 0 32)) as bs2 eqn:Hbs2.
  intros [= <- _] [= <- _]. subst bs1 bs2.
  assert (Hb : forall f : nat -> Byte.byte, forall l,
             Forall (fun b => b < 256) (map (fun i => Byte.to_N (f i)) l)).
  { intros f l. induction l as [|i l IHl]; [apply Forall_nil_2|].
    apply Forall_cons_2; [|done].
    pose proof (Byte.to_N_bounded (f i)). lia. }
  split.
  - intros Heq i Hi.
    assert (Henc : urlsafe_b64encode (map f1 (seq 0 32))
                   = urlsafe_b64encode (map f2 (seq 0 32))).
    { etrans; [apply token_padding; by rewrite length_map, length_seq|].
      etrans; [|symmetry; apply token_padding; by rewrite length_map, length_seq].
      f_equal. exact Heq. }
    apply urlsafe_b64encode_inj in Henc.
    + assert (Hi' : f1 i = f2 i).
      { apply (proj1 List.map_ext_in_iff Henc), in_seq. lia. }
      unfold f1, f2 in Hi'.
      pose proof (Byte.of_to_N (urandom (drawn w1 + i)%nat)) as H1.
      pose proof (Byte.of_to_N (urandom (drawn w2 + i)%nat)) as H2.
      congruence.
    + apply (Hb (fun i => urandom (drawn w1 + i)%nat)).
    + apply (Hb (fun i => urandom (drawn w2 + i)%nat)).
    + by rewrite !length_map.
  - intros Hall. do 2 f_equal. apply map_ext_in. intros i Hi%in_seq.
    unfold f1, f2. rewrite Hall; [done|lia].
Qed.

End Entropy.

Lemma equal_tokens_equal_entropy_witness :
  exists t1 t2,
    _new_csrf_token counting_entropy fresh
    = (Ret t1, {| sent := []; drawn := 32 |})
    /\ fst (_new_csrf_token counting_entropy {| sent := []; drawn := 32 |})
       = Ret t2
    /\ (t1 = t2 <->
        forall i, (i < 32)%nat ->
          counting_entropy (0 + i)%nat = counting_entropy (32 + i)%nat).
Proof.
  eexists _, _. split; [vm_compute; reflexivity|].
  split; [vm_compute; reflexivity|].
  apply (equal_tokens_equal_entropy counting_entropy fresh
           {| sent := []; drawn := 32 |} _ _
           {| sent := []; drawn := 32 |} {| sent := []; drawn := 64 |});
    vm_compute; reflexivity.
Defined.

(** ** The page routes *)

Section PageRoutes.

Variable urandom : nat -> Byte.byte.
Variable send_file : pystr -> res response.
Variable html_path : pystr.

Local Abbreviation page_cookie cfg tok :=
  {| key := str "csrf-token"; value := tok;
     max_age := Some 604800%Z; path := Some (str "/");
     secure := CSRF_COOKIE_SECURE cfg; httponly := false;
     samesite := Some (str "Lax") |}.

(** X4. [GET /] and [GET /tutor] behave alike. When the page file cannot
    be sent the error leaves the view and no token is minted, even on a
    first visit. Otherwise the file response goes out with its status and
    body unchanged and one more cookie, whose token is never empty; on a
    first visit, or when the inbound cookie is ASCII, a later request that
    sends the token back as cookie and as X-CSRF-Token header passes
    [verify_csrf]. *)
Theorem page_routes_attach_token (cfg : config) (req : request) (w : world) :
  index urandom send_file html_path cfg req w
  = tutor_main urandom send_file html_path cfg req w
  /\ (forall e, send_file html_path = Raise e ->
      index urandom send_file html_path cfg req w = (Raise e, w))
  /\ (forall resp, send_file html_path = Ret resp ->
      exists tok w',
        index urandom send_file html_path cfg req w
        = (Ret {| status := status resp; body := body resp;
                  set_cookies := set_cookies resp ++ [page_cookie cfg tok] |},
           w')
        /\ tok <> []
        /\ (falsy (cookies req !! CSRF_COOKIE_NAME) = true \/ isascii tok = true ->
            forall req2,
              cookies req2 !! CSRF_COOKIE_NAME = Some tok ->
              headers_get req2 (str "X-CSRF-Token") = Some tok ->
              verify_csrf req2 = Ret true)).
Proof.
  split; [reflexivity|]. split.
  - intros e He. unfold index, bind, lift. by rewrite He.
  - intros resp Hresp. unfold index, bind, lift. rewrite Hresp.
    destruct (ensure_csrf_cookie_sets urandom cfg req resp None w)
      as (tok & w' & Hens & _).
    destruct (ensure_hands_out urandom cfg req resp w _ _ Hens)
      as (tok' & Heq & Hne & Hfrom).
    injection Heq as Heq. apply app_inj_tail in Heq as [_ Heq].
    injection Heq as <-.
    exists tok, w'. split; [exact Hens|]. split; [exact Hne|].
    intros Hcond req2 Hc Hh. apply (echoed_token_verifies req2 tok); try done.
    destruct Hfrom as [[Hin _] | (_ & _ & Hascii)]; [|done].
    destruct Hcond as [Hf | Hascii]; [|done].
    rewrite Hin in Hf. by destruct tok.
Qed.

End PageRoutes.

Lemma page_routes_attach_token_witness :
  index counting_entropy file_missing (str "tutor.html") with_key
    (bare_request (Ret PNone)) fresh
  = (Raise (HTTPException 404), fresh).
Proof.
  apply (proj1 (proj2 (page_routes_attach_token counting_entropy file_missing
                         (str "tutor.html") with_key
                         (bare_request (Ret PNone)) fresh))).
  reflexivity.
Defined.

(** A first visit to the page: the file, and the token minted from the
    bytes 0, 1, 2, ... *)
Example index_first_visit :
  index counting_entropy file_found (str "tutor.html") with_key
    (bare_request (Ret PNone)) fresh
  = (Ret {| status := 200; body := FileBody (str "tutor.html");
            set_cookies :=
              [{| key := str "csrf-token";
                  value := str "AAECAwQFBgcICQoLDA0ODxAREhMUFRYXGBkaGxwdHh8";
                  max_age := Some 604800%Z; path := Some (str "/");
                  secure := false; httponly := false;
                  samesite := Some (str "Lax") |}] |},
     {| sent := []; drawn := 32 |}).
Proof. vm_compute. reflexivity. Qed.

(** ** What the three handlers send and answer, on every input *)

Section Invariants.

Variable loads : pystr -> res json.
Variable requests_post : nat -> post_call -> res reply.
Variable exn_str : exn -> pystr.

Local Arguments str : simpl never.
Local Arguments lit : simpl never.
Local Arguments dict : simpl never.
Local Arguments jsonify : simpl never.
Local Arguments falsy : simpl never.
Local Arguments extract_areas : simpl never.
Local Arguments extract_safety : simpl never.
Local Arguments completion_content : simpl never.
Local Arguments areas_prompt : simpl never.
Local Arguments safety_prompt : simpl never.
Local Arguments auth_headers : simpl never.
Local Arguments strip : simpl never.
Local Arguments verify_csrf : simpl never.

Lemma extract_areas_shape (content : json) (resp : response) :
  extract_areas loads content = Ret resp ->
  exists l, resp = jsonify (dict [(str "areas", PList l)]).
Proof.
  unfold extract_areas, no_areas.
  destruct (loads_value loads content) as [[]|]; simpl;
    try (intros [= <-]; eauto; fail).
  destruct content; try discriminate.
  destruct (_ && _); [|intros [= <-]; eauto].
  destruct (loads _) as [[]|]; simpl; intros [= <-]; eauto.
Qed.

Lemma extract_safety_shape (content : json) :
  exists o, extract_safety loads content = jsonify (PDict o)
            /\ is_Some (o !! str "safe").
Proof.
  assert (Hneg : exists o, could_not_verify = jsonify (PDict o)
                           /\ is_Some (o !! str "safe")).
  { eexists. split; [reflexivity|]. vm_compute. eauto. }
  unfold extract_safety.
  destruct (loads_value loads content) as [[| | | | | |o]|]; simpl; try exact Hneg.
  destruct (bool_decide (is_Some (o !! str "safe"))) eqn:Hsafe; [|exact Hneg].
  apply bool_decide_eq_true in Hsafe. eauto.
Qed.

Lemma model_of_payload (model : pystr) (rest : list (pystr * json)) :
  exists m, dict ((str "model", PStr model) :: rest) = PDict m
            /\ m !! str "model" = Some (PStr model).
Proof.
  eexists. split; [reflexivity|]. apply lookup_insert_eq.
Qed.

Ltac run_handler :=
  unfold get_areas, chat, check_area, bind, lift, ret, try_, post, res_bind;
  repeat match goal with
         | |- context [match ?x with _ => _ end] =>
           lazymatch x with
           | context [match _ with _ => _ end] => fail
           | _ => destruct x eqn:?; simpl
           end
         end.

(** X6. On every input and whatever the upstream does, each of the three
    handlers draws no entropy and sends at most one call. A call that is
    sent is appended to the log, goes to the completions URL with the bearer
    authorization of the configured key and names the configured model, and
    is sent only after CSRF verification and the API-key check have
    passed. *)
Theorem at_most_one_call (cfg : config) (req : request) (w : world) :
  let one (out : res response * world) :=
    drawn (snd out) = drawn w
    /\ (sent (snd out) = sent w
        \/ exists m,
             sent (snd out)
             = sent w ++ [{| url := COMPLETIONS_URL;
                             call_headers := auth_headers cfg;
                             call_json := PDict m |}]
             /\ m !! str "model" = Some (PStr (OPENAI_MODEL cfg))
             /\ verify_csrf req = Ret true
             /\ falsy (OPENAI_API_KEY cfg) = false) in
  one (get_areas loads requests_post exn_str cfg req w)
  /\ one (chat requests_post exn_str cfg req w)
  /\ one (check_area loads requests_post exn_str cfg req w).
Proof.
  intros one. unfold one.
  repeat split; run_handler; try done;
    try (by left);
    right;
    match goal with
    | |- context [dict ((str "model", PStr ?mo) :: ?rest)] =>
      destruct (model_of_payload mo rest) as (m & -> & Hm)
    end;
    exists m; repeat split; try done;
    match goal with H : negb ?b = false |- _ => by destruct b end.
Qed.

(** X7. Whatever a handler answers carries no cookie. An answer of
    [get_areas] with status 200 is an object whose [areas] is an array; an
    answer of [check_area] with status 200 is an object with a [safe] key;
    an answer of [chat] with status 200 is a JSON body. Every other answer
    has status 403 or 500 and the body [{"error": text}]. *)
Theorem answer_shapes (cfg : config) (req : request) (w : world)
    (resp : response) (w' : world) :
  let failure :=
    exists msg,
      (status resp = 403 \/ status resp = 500)%Z
      /\ body resp = JsonBody (dict [(str "error", PStr msg)]) in
  (get_areas loads requests_post exn_str cfg req w = (Ret resp, w') ->
   set_cookies resp = []
   /\ (failure
       \/ exists l, status resp = 200%Z
                    /\ body resp = JsonBody (dict [(str "areas", PList l)])))
  /\ (check_area loads requests_post exn_str cfg req w = (Ret resp, w') ->
      set_cookies resp = []
      /\ (failure
          \/ exists o, status resp = 200%Z /\ body resp = JsonBody (PDict o)
                       /\ is_Some (o !! str "safe")))
  /\ (chat requests_post exn_str cfg req w = (Ret resp, w') ->
      set_cookies resp = []
      /\ (failure \/ exists j, status resp = 200%Z /\ body resp = JsonBody j)).
Proof.
  intros failure.
  assert (Hfail : forall msg code (P : Prop), (code = 403 \/ code = 500)%Z ->
    resp = with_status (jsonify (dict [(str "error", PStr msg)])) code ->
    set_cookies resp = [] /\ (failure \/ P)).
  { intros msg code P Hcode ->. split; [reflexivity|]. left. by exists msg. }
  split; [|split].
  - run_handler; intros Hout; inversion Hout; subst; clear Hout;
      try (eapply Hfail; [|reflexivity]; auto; fail).
    + split; [reflexivity|]. right. exists []. by split.
    + match goal with H : extract_areas _ _ = Ret _ |- _ =>
        apply extract_areas_shape in H as [l' Hl] end.
      split; [by rewrite Hl|]. right. exists l'. by rewrite Hl.
  - run_handler; intros Hout; inversion Hout; subst; clear Hout;
      try (eapply Hfail; [|reflexivity]; auto; fail).
    + split; [reflexivity|]. right. eexists. split; [reflexivity|].
      split; [reflexivity|]. vm_compute. eauto.
    + match goal with |- context [extract_safety loads ?c] =>
        destruct (extract_safety_shape c) as (o & -> & Ho) end.
      split; [reflexivity|]. right. exists o. by repeat split.
  - run_handler; intros Hout; inversion Hout; subst; clear Hout;
      try (eapply Hfail; [|reflexivity]; auto; fail).
    split; [reflexivity|]. right. eauto.
Qed.

End Invariants.

Lemma at_most_one_call_witness :
  sent (snd (get_areas json_loads (upstream_says (lit "['A']")) exn_name
               with_key
               (request_with (str "tok")
                  (Ret (dict [(str "coach", PStr (str "nurse"))])))
               fresh))
  <> [].
Proof.
  destruct (proj2 (proj1 (at_most_one_call json_loads
                            (upstream_says (lit "['A']")) exn_name with_key
                            (request_with (str "tok")
                               (Ret (dict [(str "coach", PStr (str "nurse"))])))
                            fresh)))
    as [Hnone | (m & Hsent & _)].
  - vm_compute in Hnone. discriminate Hnone.
  - rewrite Hsent. discriminate.
Defined.

Lemma answer_shapes_witness :
  exists o,
    is_Some (o !! str "safe")
    /\ body (jsonify (dict [(str "safe", PBool true)])) = JsonBody (PDict o).
Proof.
  destruct (proj1 (proj2 (answer_shapes json_loads
                            (upstream_says (lit "{'safe': true}")) exn_name
                            with_key
                            (request_with (str "tok")
                               (Ret (dict [(str "area", PStr (str "nursing"))])))
                            fresh
                            (jsonify (dict [(str "safe", PBool true)]))
                            _))
              ltac:(vm_compute; reflexivity))
    as [_ [(msg & [Hs | Hs] & _) | (o & _ & Hbody & Hsafe)]];
    [discriminate Hs | discriminate Hs | eauto].
Defined.

(** ** Surrounding whitespace *)

Lemma lstrip_app_space (ws s : pystr) :
  forallb isspace ws = true -> lstrip (ws ++ s) = lstrip s.
Proof.
  induction ws as [|c ws IH]; simpl; [done|].
  intros H. apply andb_true_iff in H as [-> H]. by apply IH.
Qed.

Lemma lstrip_app_kept (s t : pystr) :
  lstrip s <> [] -> lstrip (s ++ t) = lstrip s ++ t.
Proof.
  induction s as [|c s IH]; simpl; [done|].
  destruct (isspace c); [exact IH | done].
Qed.

Lemma rstrip_app_space (s ws : pystr) :
  forallb isspace ws = true -> rstrip (s ++ ws) = rstrip s.
Proof.
  intros H. unfold rstrip. rewrite rev_app_distr, lstrip_app_space; [done|].
  apply forallb_forall. intros c Hc. apply in_rev in Hc.
  rewrite forallb_forall in H. by apply H.
Qed.

(** Whitespace around a string does not change what [strip] returns. *)
Lemma strip_padded (ws1 s ws2 : pystr) :
  forallb isspace ws1 = true -> forallb isspace ws2 = true ->
  strip (ws1 ++ s ++ ws2) = strip s.
Proof.
  intros H1 H2. unfold strip. rewrite lstrip_app_space by done.
  destruct (lstrip s) as [|c r] eqn:Hs.
  - apply lstrip_nil_iff in Hs.
    assert (Hall : lstrip (s ++ ws2) = []).
    { apply lstrip_nil_iff. rewrite forallb_app. by rewrite Hs, H2. }
    by rewrite Hall.
  - rewrite lstrip_app_kept by (by rewrite Hs). rewrite Hs.
    by apply rstrip_app_space.
Qed.

(** ** The handlers at their edges *)

Section Edges.

Variable loads : pystr -> res json.
Variable requests_post : nat -> post_call -> res reply.
Variable exn_str : exn -> pystr.

Local Arguments str : simpl never.
Local Arguments lit : simpl never.
Local Arguments dict : simpl never.
Local Arguments jsonify : simpl never.
Local Arguments falsy : simpl never.
Local Arguments extract_areas : simpl never.
Local Arguments extract_safety : simpl never.
Local Arguments completion_content : simpl never.
Local Arguments areas_prompt : simpl never.
Local Arguments safety_prompt : simpl never.
Local Arguments auth_headers : simpl never.
Local Arguments strip : simpl never.
Local Arguments verify_csrf : simpl never.

Ltac enter :=
  unfold get_areas, chat, check_area, bind, lift, ret, try_, post;
  repeat match goal with
         | H : verify_csrf _ = _ |- _ => rewrite H
         | H : falsy _ = _ |- _ => rewrite H
         | H : get_json _ = _ |- _ => rewrite H
         end;
  simpl.

(** X8. Past both gates, a body that cannot be read makes each of the
    three handlers raise out of the view with nothing sent upstream: the
    error of [request.get_json()] itself, or [AttributeError] when the body
    is JSON but not an object. *)
Theorem unreadable_body_raises (cfg : config) (req : request) (w : world) :
  verify_csrf req = Ret true ->
  falsy (OPENAI_API_KEY cfg) = false ->
  (forall e, get_json req = Raise e ->
     get_areas loads requests_post exn_str cfg req w = (Raise e, w)
     /\ chat requests_post exn_str cfg req w = (Raise e, w)
     /\ check_area loads requests_post exn_str cfg req w = (Raise e, w))
  /\ (forall data, get_json req = Ret data -> (forall d, data <> PDict d) ->
      get_areas loads requests_post exn_str cfg req w = (Raise AttributeError, w)
      /\ chat requests_post exn_str cfg req w = (Raise AttributeError, w)
      /\ check_area loads requests_post exn_str cfg req w
         = (Raise AttributeError, w)).
Proof.
  intros Hcsrf Hkey. split.
  - intros e Hjson. repeat split; enter; reflexivity.
  - intros data Hjson Hdata.
    repeat split; enter; destruct data; try reflexivity; by destruct (Hdata d).
Qed.

(** X9. The completion text is read from an upstream answer exactly when
    the answer is a JSON object whose [choices] is an array that begins
    with an object whose [message] is an object with a [content]; further
    choices and further keys are ignored. *)
Theorem completion_content_iff (r : reply) (content : json) :
  completion_content r = Ret content <->
  exists j first rest message,
    reply_json r = Ret (PDict j)
    /\ j !! str "choices" = Some (PList (PDict first :: rest))
    /\ first !! str "message" = Some (PDict message)
    /\ message !! str "content" = Some content.
Proof.
  unfold completion_content, res_bind, getitem_str, getitem_int. split.
  - destruct (reply_json r) as [[| | | | | |j]|]; try discriminate.
    destruct (j !! str "choices") as [[| | | |s|l|d]|] eqn:Hch;
      try discriminate.
    + destruct (s !! 0%nat); discriminate.
    + destruct l as [|[| | | | | |first] rest]; try discriminate. simpl.
      destruct (first !! str "message") as [[| | | | | |message]|] eqn:Hm;
        try discriminate.
      destruct (message !! str "content") as [c|] eqn:Hc; [|discriminate].
      intros [= <-]. by exists j, first, rest, message.
  - intros (j & first & rest & message & -> & -> & Hm & Hc). simpl.
    by rewrite Hm, Hc.
Qed.

(** X10. Past both gates, with a non-blank [coach] or [area], a call
    that fails or an answer from which no completion text can be read is
    answered 500 with the text of the exception, after exactly one call. *)
Theorem upstream_failure_is_500 (cfg : config) (req : request) (w : world)
    (d : gmap pystr json) (field : pystr) (c : N) (t : pystr) (e : exn) :
  verify_csrf req = Ret true ->
  falsy (OPENAI_API_KEY cfg) = false ->
  get_json req = Ret (PDict d) ->
  strip field = c :: t ->
  let failed :=
    with_status (jsonify (dict [(str "error", PStr (exn_str e))])) 500 in
  let call prompt budget :=
    {| url := COMPLETIONS_URL;
       call_headers := auth_headers cfg;
       call_json :=
         dict [(str "model", PStr (OPENAI_MODEL cfg));
               (str "messages", prompt);
               (str "max_tokens", PInt budget);
               (str "temperature", PFloat (Dec false 0 (-1)))] |} in
  (d !! str "coach" = Some (PStr field) ->
   (let? r := requests_post (length (sent w)) (call (areas_prompt (c :: t)) 300%Z)
    in completion_content r) = Raise e ->
   get_areas loads requests_post exn_str cfg req w
   = (Ret failed,
      {| sent := sent w ++ [call (areas_prompt (c :: t)) 300%Z];
         drawn := drawn w |}))
  /\ (d !! str "area" = Some (PStr field) ->
      (let? r := requests_post (length (sent w))
                   (call (safety_prompt (c :: t)) 60%Z)
       in completion_content r) = Raise e ->
      check_area loads requests_post exn_str cfg req w
      = (Ret failed,
         {| sent := sent w ++ [call (safety_prompt (c :: t)) 60%Z];
            drawn := drawn w |})).
Proof.
  intros Hcsrf Hkey Hjson Hstrip failed call. unfold res_bind.
  split; intros Hfield Hup; enter; rewrite Hfield; simpl; rewrite Hstrip;
    fold (call (areas_prompt (c :: t)) 300%Z);
    fold (call (safety_prompt (c :: t)) 60%Z);
    destruct (requests_post _ _) as [r|e']; simpl;
    try (injection Hup as <-; reflexivity);
    by rewrite Hup.
Qed.

(** X11. A completion whose content is not a string is treated unlike by
    the two extracting handlers: [get_areas] fails on it and answers 500
    with the text of an [AttributeError], [check_area] answers its negative
    default with status 200. *)
Theorem non_string_content (cfg : config) (req : request) (w : world)
    (d : gmap pystr json) (field : pystr) (c : N) (t : pystr)
    (r : reply) (content : json) :
  verify_csrf req = Ret true ->
  falsy (OPENAI_API_KEY cfg) = false ->
  get_json req = Ret (PDict d) ->
  strip field = c :: t ->
  completion_content r = Ret content ->
  (forall s, content <> PStr s) ->
  let call prompt budget :=
    {| url := COMPLETIONS_URL;
       call_headers := auth_headers cfg;
       call_json :=
         dict [(str "model", PStr (OPENAI_MODEL cfg));
               (str "messages", prompt);
               (str "max_tokens", PInt budget);
               (str "temperature", PFloat (Dec false 0 (-1)))] |} in
  (d !! str "coach" = Some (PStr field) ->
   requests_post (length (sent w)) (call (areas_prompt (c :: t)) 300%Z) = Ret r ->
   fst (get_areas loads requests_post exn_str cfg req w)
   = Ret (with_status
            (jsonify (dict [(str "error", PStr (exn_str AttributeError))])) 500))
  /\ (d !! str "area" = Some (PStr field) ->
      requests_post (length (sent w)) (call (safety_prompt (c :: t)) 60%Z) = Ret r ->
      fst (check_area loads requests_post exn_str cfg req w)
      = Ret (jsonify
               (dict [(str "safe", PBool false);
                      (str "reason", PStr (str "Could not verify area safety"))]))).
Proof.
  intros Hcsrf Hkey Hjson Hstrip Hcontent Hns call.
  split; intros Hfield Hpost.
  - erewrite get_areas_relays by eauto.
    by rewrite extract_areas_non_string.
  - erewrite check_area_relays by eauto. simpl. f_equal.
    unfold extract_safety. by destruct content; try destruct (Hns s).
Qed.

(** X12. The two extracting handlers read nothing of a request but the
    CSRF verdict and the stripped field: two requests with the same
    verdict whose [coach] (or [area]) differ only in surrounding whitespace
    are answered alike and send the same call. *)
Theorem surrounding_whitespace_ignored (cfg : config) (req1 req2 : request)
    (w : world) (d1 d2 : gmap pystr json) (s ws1 ws2 : pystr) :
  verify_csrf req1 = verify_csrf req2 ->
  get_json req1 = Ret (PDict d1) ->
  get_json req2 = Ret (PDict d2) ->
  forallb isspace ws1 = true ->
  forallb isspace ws2 = true ->
  (d1 !! str "coach" = Some (PStr s) ->
   d2 !! str "coach" = Some (PStr (ws1 ++ s ++ ws2)) ->
   get_areas loads requests_post exn_str cfg req1 w
   = get_areas loads requests_post exn_str cfg req2 w)
  /\ (d1 !! str "area" = Some (PStr s) ->
      d2 !! str "area" = Some (PStr (ws1 ++ s ++ ws2)) ->
      check_area loads requests_post exn_str cfg req1 w
      = check_area loads requests_post exn_str cfg req2 w).
Proof.
  intros Hcsrf Hj1 Hj2 H1 H2.
  split; intros Hf1 Hf2;
    unfold get_areas, check_area, bind, lift; rewrite Hcsrf, Hj1, Hj2;
    destruct (verify_csrf req2) as [[]|]; simpl; try reflexivity;
    destruct (falsy (OPENAI_API_KEY cfg)); try reflexivity;
    simpl; rewrite Hf1, Hf2; simpl; by rewrite strip_padded.
Qed.

(** X13. Past both gates, the one call [chat] sends carries exactly the
    four fields model, messages, max_tokens and temperature, and its model
    is the configured one: a model or any other field in the body is not
    forwarded. *)
Theorem chat_forwards_four_fields (cfg : config) (req : request) (w : world)
    (d : gmap pystr json) :
  verify_csrf req = Ret true ->
  falsy (OPENAI_API_KEY cfg) = false ->
  get_json req = Ret (PDict d) ->
  exists m,
    sent (snd (chat requests_post exn_str cfg req w))
    = sent w ++ [{| url := COMPLETIONS_URL;
                    call_headers := auth_headers cfg;
                    call_json := PDict m |}]
    /\ m !! str "model" = Some (PStr (OPENAI_MODEL cfg))
    /\ (forall k, is_Some (m !! k) <->
          k = str "model" \/ k = str "messages"
          \/ k = str "max_tokens" \/ k = str "temperature").
Proof.
  intros Hcsrf Hkey Hjson. eexists. split; [|split].
  - enter. unfold dict.
    destruct (requests_post _ _) as [r|e]; [|reflexivity].
    by destruct (reply_json r).
  - apply lookup_insert_eq.
  - intros k. simpl. rewrite !lookup_insert_is_Some, lookup_empty. split.
    + intros [<- | [_ [<- | [_ [<- | [_ [<- | [_ [x Hx]]]]]]]]];
        auto; discriminate Hx.
    + assert (Hne : forall a b : pystr, bool_decide (a = b) = false -> a <> b)
        by (intros a b H; by apply bool_decide_eq_false in H).
      intros [-> | [-> | [-> | ->]]];
        repeat first [ left; reflexivity
                     | right; split; [by apply Hne; vm_compute|] ].
Qed.

End Edges.

Lemma unreadable_body_raises_witness :
  chat (upstream_says []) exn_name with_key
    (request_with (str "tok") (Ret (PList []))) fresh
  = (Raise AttributeError, fresh).
Proof.
  refine (proj1 (proj2 (proj2 (unreadable_body_raises json_loads
                                 (upstream_says []) exn_name with_key
                                 (request_with (str "tok") (Ret (PList [])))
                                 fresh _ _)
                          (PList []) _ _)));
    try (vm_compute; reflexivity).
  intros d. discriminate.
Defined.

Lemma upstream_failure_is_500_witness :
  fst (get_areas json_loads upstream_down exn_name with_key
         (request_with (str "tok") (Ret (dict [(str "coach", PStr (str "nurse"))])))
         fresh)
  = Ret (with_status
           (jsonify (dict [(str "error", PStr (exn_name RequestException))])) 500).
Proof.
  refine (f_equal fst
            (proj1 (upstream_failure_is_500 json_loads upstream_down exn_name
                      with_key
                      (request_with (str "tok")
                         (Ret (dict [(str "coach", PStr (str "nurse"))])))
                      fresh (list_to_map [(str "coach", PStr (str "nurse"))])
                      (str "nurse") (ch "n") (str "urse") RequestException
                      _ _ _ _) _ _));
    vm_compute; reflexivity.
Defined.

Lemma non_string_content_witness :
  fst (check_area json_loads (upstream_body (completion PNone)) exn_name
         with_key
         (request_with (str "tok") (Ret (dict [(str "area", PStr (str "nursing"))])))
         fresh)
  = Ret (jsonify
           (dict [(str "safe", PBool false);
                  (str "reason", PStr (str "Could not verify area safety"))])).
Proof.
  refine (proj2 (non_string_content json_loads (upstream_body (completion PNone))
                   exn_name with_key
                   (request_with (str "tok")
                      (Ret (dict [(str "area", PStr (str "nursing"))])))
                   fresh (list_to_map [(str "area", PStr (str "nursing"))])
                   (str "nursing") (ch "n") (str "ursing")
                   {| reply_json := Ret (completion PNone) |} PNone
                   _ _ _ _ _ _) _ _);
    try (vm_compute; reflexivity).
  intros s. discriminate.
Defined.

Lemma surrounding_whitespace_ignored_witness :
  get_areas json_loads (upstream_says (lit "['A']")) exn_name with_key
    (request_with (str "tok") (Ret (dict [(str "coach", PStr (str "nurse"))])))
    fresh
  = get_areas json_loads (upstream_says (lit "['A']")) exn_name with_key
      (request_with (str "other")
         (Ret (dict [(str "coach", PStr (str "  nurse "));
                     (str "note", PInt 1)])))
      fresh.
Proof.
  refine (proj1 (surrounding_whitespace_ignored json_loads
                   (upstream_says (lit "['A']")) exn_name with_key
                   (request_with (str "tok")
                      (Ret (dict [(str "coach", PStr (str "nurse"))])))
                   (request_with (str "other")
                      (Ret (dict [(str "coach", PStr (str "  nurse "));
                                  (str "note", PInt 1)])))
                   fresh
                   (list_to_map [(str "coach", PStr (str "nurse"))])
                   (list_to_map [(str "coach", PStr (str "  nurse "));
                                 (str "note", PInt 1)])
                   (str "nurse") (str "  ") (str " ") _ _ _ _ _) _ _);
    vm_compute; reflexivity.
Defined.

Lemma chat_forwards_four_fields_witness :
  exists m,
    (call_json <$> sent (snd (chat (upstream_body PNone) exn_name with_key
                                (request_with (str "tok")
                                   (Ret (dict [(str "model", PStr (str "gpt-4"));
                                               (str "stream", PBool true)])))
                                fresh)))
    = [PDict m]
    /\ m !! str "model" = Some (PStr (str "gpt-3.5-turbo"))
    /\ m !! str "stream" = None.
Proof.
  destruct (chat_forwards_four_fields (upstream_body PNone) exn_name with_key
              (request_with (str "tok")
                 (Ret (dict [(str "model", PStr (str "gpt-4"));
                             (str "stream", PBool true)])))
              fresh
              (list_to_map [(str "model", PStr (str "gpt-4"));
                            (str "stream", PBool true)])
              eq_refl eq_refl eq_refl)
    as (m & Hsent & Hmodel & Hkeys).
  exists m. rewrite Hsent. split; [reflexivity|]. split; [exact Hmodel|].
  destruct (m !! str "stream") eqn:Hs; [|reflexivity].
  assert (H : is_Some (m !! str "stream")) by (rewrite Hs; eauto).
  apply Hkeys in H. exfalso.
  destruct H as [H|[H|[H|H]]]; vm_compute in H; discriminate H.
Defined.

(** ** Arrays wrapped in prose *)

Section Prose.

Variable requests_post : nat -> post_call -> res reply.
Variable exn_str : exn -> pystr.

(** X14. With CPython's decoder, [POST /api/areas] recovers a flat array of
    strings from a completion that wraps it in prose: when the completion
    text is such an array, alone or inside a text that is not JSON as a
    whole, with no opening bracket before it and no closing bracket inside
    an element, the answer is [{"areas": [...]}] with exactly those
    strings, in order. *)
Theorem prose_wrapped_areas (cfg : config) (req : request) (w : world)
    (d : gmap pystr json) (coach : pystr) (c : N) (t : pystr) (r : reply)
    (pre post : pystr) (l : list pystr) :
  verify_csrf req = Ret true ->
  falsy (OPENAI_API_KEY cfg) = false ->
  get_json req = Ret (PDict d) ->
  d !! str "coach" = Some (PStr coach) ->
  strip coach = c :: t ->
  requests_post (length (sent w))
    {| url := COMPLETIONS_URL;
       call_headers := auth_headers cfg;
       call_json :=
         dict [(str "model", PStr (OPENAI_MODEL cfg));
               (str "messages", areas_prompt (c :: t));
               (str "max_tokens", PInt 300);
               (str "temperature", PFloat (Dec false 0 (-1)))] |} = Ret r ->
  completion_content r = Ret (PStr (pre ++ array_text l ++ post)) ->
  Forall (fun x => forallb plain x = true) l ->
  Forall (fun x => ch "]" ∉ x) l ->
  ch "[" ∉ pre ->
  (pre = [] /\ post = [])
  \/ (exists e, json_loads (pre ++ array_text l ++ post) = Raise e) ->
  fst (get_areas json_loads requests_post exn_str cfg req w)
  = Ret (jsonify (dict [(str "areas", PList (map PStr l))])).
Proof.
  intros Hcsrf Hkey Hjson Hcoach Hstrip Hpost Hcontent Hplain Hclose Hpre Hcase.
  erewrite get_areas_relays by eauto. cbn [fst].
  destruct Hcase as [[-> ->] | [e He]].
  - rewrite app_nil_l, app_nil_r. unfold extract_areas, loads_value.
    by rewrite json_loads_array_text.
  - by rewrite (flat_array_recovered pre post l e).
Qed.

End Prose.

Lemma prose_wrapped_areas_witness :
  fst (get_areas json_loads
         (upstream_says (lit "Sure! ['System Design', 'Behavioral'] Good luck."))
         exn_name with_key
         (request_with (str "tok") (Ret (dict [(str "coach", PStr (str "nurse"))])))
         fresh)
  = Ret (jsonify (dict [(str "areas",
                         PList [PStr (str "System Design");
                                PStr (str "Behavioral")])])).
Proof.
  refine (prose_wrapped_areas
            (upstream_says (lit "Sure! ['System Design', 'Behavioral'] Good luck."))
            exn_name with_key
            (request_with (str "tok") (Ret (dict [(str "coach", PStr (str "nurse"))])))
            fresh (list_to_map [(str "coach", PStr (str "nurse"))])
            (str "nurse") (ch "n") (str "urse")
            {| reply_json :=
                 Ret (completion
                        (PStr (lit "Sure! ['System Design', 'Behavioral'] Good luck."))) |}
            (str "Sure! ") (str " Good luck.")
            [str "System Design"; str "Behavioral"]
            _ _ _ _ _ _ _ _ _ _ _);
    try (vm_compute; reflexivity).
  - repeat apply Forall_cons_2; try apply Forall_nil_2; vm_compute; reflexivity.
  - repeat apply Forall_cons_2; try apply Forall_nil_2;
      apply (bool_decide_unpack _); vm_compute; exact I.
  - apply (bool_decide_unpack _); vm_compute; exact I.
  - right. exists JSONDecodeError. vm_compute. reflexivity.
Defined.
